(** * gogitver: version resolution from git history

    A shallow embedding of [pkg/git/git.go] and of the [label] command of
    [cmd/gogitver/cmd/root.go], with the properties of the version assembler,
    the default-branch locator, the branch identity resolver and the tag map.

    Go values are modelled as follows.
    - [string] is Go's byte string; [int64] and [int] are [Z] with the
      two's-complement wrap-around written out ([wrap64]).
    - A [*semver.Version] is a pointer: [option loc] ([None] is [nil]) into a
      store [gmap loc Version].  Bump methods update the store in place.
    - A Go [(value, error)] result is an [outcome]; a run-time panic (nil
      dereference, index out of range) is the third outcome [Panic].
    - The repository-access library (go-git), the branch walker and the tag
      parser are collaborators: their answers are the fields of
      [Repository] and the operations of the classes [GitLibrary] and
      [Walker]. *)

From Stdlib Require Import ZArith Ascii String List Bool Lia.
From Stdlib Require Import Numbers.DecimalString.
From stdpp Require Import base option list strings gmap.

Local Open Scope string_scope.
Local Open Scope Z_scope.
Local Open Scope list_scope.

(** ** Go errors and results *)

(** [errors.New]/[fmt.Errorf] build a message; [errors.Wrap] puts a context
    message around a cause. *)
Inductive error : Type :=
  | errorString (msg : string)
  | withMessage (cause : error) (msg : string).

Inductive outcome (A : Type) : Type :=
  | Ok (a : A)
  | Err (e : error)
  | Panic.
Arguments Ok {A} a.
Arguments Err {A} e.
Arguments Panic {A}.

Definition bind {A B : Type} (m : outcome A) (k : A -> outcome B) : outcome B :=
  match m with
  | Ok a => k a
  | Err e => Err e
  | Panic => Panic
  end.

Notation "'do' x <- m ; k" := (bind m (fun x => k))
  (at level 10, x name, m at level 100, k at level 200).

(** [errors.Wrap(err, msg)] on the error branch of a call. *)
Definition wrap {A : Type} (msg : string) (m : outcome A) : outcome A :=
  match m with
  | Err e => Err (withMessage e msg)
  | other => other
  end.

(** A dereference: [None] stands for the nil-pointer panic. *)
Definition orPanic {A : Type} (o : option A) : outcome A :=
  match o with
  | Some a => Ok a
  | None => Panic
  end.

(** ** Strings *)

Definition code (c : ascii) : Z := Z.of_N (N_of_ascii c).

Definition isDigit (c : ascii) : bool := (48 <=? code c) && (code c <=? 57).

(** The character class [[a-zA-Z0-9]]. *)
Definition isAlnum (c : ascii) : bool :=
  ((97 <=? code c) && (code c <=? 122))
  || ((65 <=? code c) && (code c <=? 90))
  || isDigit c.
Arguments isAlnum : simpl never.

(** [strings.HasPrefix(s, p)] together with the rest of [s]. *)
Fixpoint stripPrefix (p s : string) : option string :=
  match p, s with
  | EmptyString, _ => Some s
  | String a p', String b s' =>
      if Ascii.eqb a b then stripPrefix p' s' else None
  | String _ _, EmptyString => None
  end.

Definition HasPrefix (s p : string) : bool :=
  match stripPrefix p s with Some _ => true | None => false end.

(** [strings.Replace(s, old, new, -1)] for a non-empty [old]: the
    non-overlapping occurrences of [old], scanned from the left.  [skip]
    counts the bytes of an occurrence that are still to be consumed. *)
Fixpoint replaceFrom (old new : string) (skip : nat) (s : string) : string :=
  match s with
  | EmptyString => EmptyString
  | String c s' =>
      match skip with
      | S k => replaceFrom old new k s'
      | O =>
          if HasPrefix s old
          then new +:+ replaceFrom old new (Nat.pred (String.length old)) s'
          else String c (replaceFrom old new O s')
      end
  end.

Definition Replace (s old new : string) : string := replaceFrom old new O s.

(** [fmt.Sprintf("%d", n)]. *)
Definition formatInt (n : Z) : string := NilZero.string_of_int (Z.to_int n).

(** [s[:n]]: panics when [n] exceeds the length. *)
Definition slicePrefix (n : nat) (s : string) : outcome string :=
  if (n <=? String.length s)%nat then Ok (substring 0 n s) else Panic.

(** [s > t] and [s < t] on Go strings compare bytes lexicographically. *)
Definition strCompare (s t : string) : comparison := String.compare s t.

(** ** Integers *)

(** An [int64] result: the mathematical value reduced to
    [-2^63 .. 2^63 - 1]. *)
Definition wrap64 (z : Z) : Z := (z + 2 ^ 63) mod 2 ^ 64 - 2 ^ 63.

Definition inInt64 (z : Z) : bool := (- 2 ^ 63 <=? z) && (z <=? 2 ^ 63 - 1).

(** ** The semver library (github.com/coreos/go-semver/semver) *)

Module semver.

Record Version : Type := mkVersion {
  Major : Z;
  Minor : Z;
  Patch : Z;
  PreRelease : string;
  Metadata : string
}.

(** [BumpMajor]: increments Major, resets all other fields. *)
Definition BumpMajor (v : Version) : Version :=
  mkVersion (wrap64 (Major v + 1)) 0 0 "" "".

(** [BumpMinor]: increments Minor, resets Patch and the labels. *)
Definition BumpMinor (v : Version) : Version :=
  mkVersion (Major v) (wrap64 (Minor v + 1)) 0 "" "".

(** [BumpPatch]: increments Patch, resets the labels. *)
Definition BumpPatch (v : Version) : Version :=
  mkVersion (Major v) (Minor v) (wrap64 (Patch v + 1)) "" "".

(** [v.Slice()]. *)
Definition Slice (v : Version) : list Z := [Major v; Minor v; Patch v].

(** [recursiveCompare]: lexicographic on the numeric slices.  The slices
    have equal length at every call; a missing [versionB[0]] would be an
    index panic and is never reached from [Compare]. *)
Fixpoint recursiveCompare (versionA versionB : list Z) : Z :=
  match versionA, versionB with
  | [], _ => 0
  | a :: ta, b :: tb =>
      if a >? b then 1 else if a <? b then -1 else recursiveCompare ta tb
  | _ :: _, [] => 0
  end.

(** [strconv.Atoi]: an optional sign, at least one decimal digit, and a
    value that fits [int]. *)
Definition digitOf (c : ascii) : option Z :=
  if isDigit c then Some (code c - 48) else None.

Fixpoint digits (s : string) (acc : Z) : option Z :=
  match s with
  | EmptyString => Some acc
  | String c s' =>
      match digitOf c with
      | Some d => digits s' (acc * 10 + d)
      | None => None
      end
  end.

Definition Atoi (s : string) : option Z :=
  match s with
  | EmptyString => None
  | String c s' =>
      let neg := Ascii.eqb c "-" in
      let body := if neg || Ascii.eqb c "+" then s' else s in
      match body with
      | EmptyString => None
      | _ =>
          match digits body 0 with
          | Some n =>
              let v := if neg then - n else n in
              if inInt64 v then Some v else None
          | None => None
          end
      end
  end.

(** [strings.Split(s, ".")], the body of [PreRelease.Slice]. *)
Fixpoint splitDots (s : string) : list string :=
  match s with
  | EmptyString => [EmptyString]
  | String c s' =>
      if Ascii.eqb c "."
      then EmptyString :: splitDots s'
      else match splitDots s' with
           | hd :: tl => String c hd :: tl
           | [] => [String c EmptyString]
           end
  end.

(** [recursivePreReleaseCompare]: identifier by identifier; a numeric
    identifier is below a non-numeric one, two numeric ones compare as
    integers, then as strings; the shorter list is the smaller. *)
Fixpoint recursivePreReleaseCompare (versionA versionB : list string) : Z :=
  match versionA, versionB with
  | [], [] => 0
  | [], _ :: _ => -1
  | _ :: _, [] => 1
  | a :: ta, b :: tb =>
      match Atoi a, Atoi b with
      | Some _, None => -1
      | None, Some _ => 1
      | aI, bI =>
          let byInt :=
            match aI, bI with
            | Some x, Some y => if x >? y then 1 else if x <? y then -1 else 0
            | _, _ => 0
            end in
          if byInt =? 0 then
            match strCompare a b with
            | Gt => 1
            | Lt => -1
            | Eq => recursivePreReleaseCompare ta tb
            end
          else byInt
      end
  end.

(** [preReleaseCompare]: of two versions with equal numbers, the one
    without a prerelease label is the greater. *)
Definition preReleaseCompare (versionA versionB : Version) : Z :=
  let a := PreRelease versionA in
  let b := PreRelease versionB in
  if (String.length a =? 0)%nat && (0 <? String.length b)%nat then 1
  else if (String.length b =? 0)%nat && (0 <? String.length a)%nat then -1
  else recursivePreReleaseCompare (splitDots a) (splitDots b).

(** [v.Compare(versionB)]: -1, 0 or +1. *)
Definition Compare (v versionB : Version) : Z :=
  let cmp := recursiveCompare (Slice v) (Slice versionB) in
  if negb (cmp =? 0) then cmp else preReleaseCompare v versionB.

(** [v.LessThan(versionB)]. *)
Definition LessThan (v versionB : Version) : bool := Compare v versionB <? 0.

(** [v.String()]. *)
Definition String_ (v : Version) : string :=
  formatInt (Major v) +:+ "." +:+ formatInt (Minor v) +:+ "."
    +:+ formatInt (Patch v)
    +:+ (if String.eqb (PreRelease v) "" then "" else "-" +:+ PreRelease v)
    +:+ (if String.eqb (Metadata v) "" then "" else "+" +:+ Metadata v).

End semver.

(** ** The repository-access library (gopkg.in/src-d/go-git.v4) *)

(** A [plumbing.Hash] is carried as its [String()] form; two hashes are
    equal exactly when these strings are. *)
Record Reference : Type := mkReference {
  refName : string;   (* ref.Name() *)
  refHash : string    (* ref.Hash() *)
}.

(** An annotated tag object: its [Name] and the answer of [Commit()],
    reduced to the commit's hash. *)
Record Tag : Type := mkTag {
  tagName : string;
  tagCommit : outcome string
}.

(** An [object.Commit]; the engine only hands it to the branch walker. *)
Record Commit : Type := mkCommit {
  commitHash : string
}.

(** One opened repository: the answer of each read-only call. *)
Record Repository : Type := mkRepository {
  Tags : outcome (list Reference);               (* r.Tags(), in ForEach order *)
  TagObjects : outcome (list Tag);               (* r.TagObjects() *)
  Head : outcome Reference;                      (* r.Head() *)
  References : outcome (list Reference);         (* r.References() *)
  ResolveReference : string -> outcome Reference; (* r.Reference(name, true) *)
  RemoteFetch : string -> outcome (list string); (* r.Remote(name); Config().Fetch *)
  CommitObject : string -> outcome Commit        (* r.CommitObject(hash) *)
}.

(** The pure helpers of go-git that the engine calls on reference names and
    on refspecs. *)
Class GitLibrary : Type := {
  IsBranch : string -> bool;          (* ReferenceName.IsBranch *)
  Short : string -> string;           (* ReferenceName.Short *)
  Reverse : string -> string;         (* RefSpec.Reverse *)
  Match : string -> string -> bool;   (* RefSpec.Match *)
  Dst : string -> string -> string    (* RefSpec.Dst *)
}.

(** [plumbing.Master]. *)
Definition Master : string := "refs/heads/master".

(** ** Data of pkg/git *)

Record BranchSettings : Type := mkBranchSettings {
  ForbidBehindDefaultBranch : bool;
  TrimBranchPrefix : bool;
  IgnoreEnvVars : bool;
  DefaultBranch : string
}.

Definition loc : Type := positive.

(** A [*semver.Version]; [None] is [nil]. *)
Definition ptr : Type := option loc.

Abbreviation store := (gmap loc semver.Version).

Record gitVersion : Type := mkGitVersion {
  IsSolid : bool;
  Name : ptr;
  MajorBump : bool;
  MinorBump : bool;
  PatchBump : bool;
  Commit_ : string
}.

(** The parts of package [git] that live outside git.go: the branch walker
    in its two modes and the tag parser.  A walk allocates the versions it
    returns, so it maps a store to a store. *)
Class Walker : Type := {
  (* newBranchWalker(r, defaultHead, tagMap, settings, true, "", _).GetVersion() *)
  GetVersion : Commit -> gmap string string -> store -> outcome (ptr * store);
  (* newBranchWalker(r, c, tagMap, settings, false, endHash, _).GetVersionMap() *)
  GetVersionMap :
    Commit -> gmap string string -> string -> store
    -> outcome (list gitVersion * store);
  parseTag : string -> outcome semver.Version
}.

(** [os.LookupEnv]: the process environment. *)
Abbreviation environ := (gmap string string).

(** ** cleanseBranchName *)

(** [regexp("[^a-zA-Z0-9]+").ReplaceAllString(s, "-")]: scanning from the
    left, each match is the longest run of characters outside the class and
    is replaced as a whole.  [inRun] tells that the previous character
    belonged to a run whose ["-"] is already written.  The regexp reads
    UTF-8 characters; every byte of a multi-byte or invalid sequence is
    outside the class, so runs of characters and runs of bytes coincide. *)
Fixpoint replaceRuns (inRun : bool) (s : string) : string :=
  match s with
  | EmptyString => EmptyString
  | String c s' =>
      if isAlnum c then String c (replaceRuns false s')
      else if inRun then replaceRuns true s'
      else String "-" (replaceRuns true s')
  end.

(** [regexp("^(feature|hotfix)-").ReplaceAllString(s, "")]: the pattern is
    anchored at the start of the text, so at most one match exists. *)
Definition trimPrefixToken (s : string) : string :=
  match stripPrefix "feature-" s with
  | Some rest => rest
  | None =>
      match stripPrefix "hotfix-" s with
      | Some rest => rest
      | None => s
      end
  end.

(** Both patterns are constants that compile, so the error results of
    [regexp.Compile] never occur. *)
Definition cleanseBranchName (name : string) (trimPrefix : bool)
  : outcome string :=
  let branchName := replaceRuns false name in
  if negb trimPrefix then Ok branchName
  else Ok (trimPrefixToken branchName).

(** ** getCurrentBranch *)

(** The callback of [refs.ForEach]: a later match overwrites an earlier
    one. *)
Definition scanStep `{GitLibrary} (h : Reference) (branchName : string)
    (r : Reference) : string :=
  if IsBranch (refName r) && String.eqb (refHash r) (refHash h)
  then Short (refName r)
  else branchName.

Definition scanReferences `{GitLibrary} (r : Repository) (h : Reference)
    (bs : BranchSettings) : outcome string :=
  do refs <- References r;
  let branchName := fold_left (scanStep h) refs "" in
  if String.eqb branchName "" then Err (errorString "Cannot determine branch")
  else cleanseBranchName branchName (TrimBranchPrefix bs).

Definition getCurrentBranch `{GitLibrary} (env : environ) (r : Repository)
    (h : Reference) (bs : BranchSettings) : outcome string :=
  if negb (IgnoreEnvVars bs) then
    match env !! "TRAVIS_PULL_REQUEST_BRANCH" with
    | Some name => cleanseBranchName name (TrimBranchPrefix bs)
    | None =>
        match env !! "TRAVIS_BRANCH" with
        | Some name => cleanseBranchName name (TrimBranchPrefix bs)
        | None =>
            match env !! "CI_COMMIT_REF_NAME" with
            | Some name => cleanseBranchName name (TrimBranchPrefix bs)
            | None => scanReferences r h bs
            end
        end
    end
  else scanReferences r h bs.

(** ** GetPrereleaseLabel and the [label] command *)

Definition GetPrereleaseLabel `{GitLibrary} (env : environ) (r : Repository)
    (bs : BranchSettings) : outcome string :=
  do h <- wrap "GetCurrentVersion failed" (Head r);
  getCurrentBranch env r h bs.

(** [runPrerelease]: what the command writes to standard output
    ([fmt.Println] ends the line).  [panic(err)] is the outcome [Panic]. *)
Definition runPrerelease `{GitLibrary} (env : environ) (r : Repository)
    (trimPrefix : bool) : outcome string :=
  let branchSettings := mkBranchSettings false trimPrefix false "" in
  match GetPrereleaseLabel env r branchSettings with
  | Ok label =>
      let label := if String.eqb label "master" then "" else label in
      Ok (label +:+ String "010" "")
  | Err _ => Panic
  | Panic => Panic
  end.

(** ** getDefaultBranch *)

Definition tryResolve (r : Repository) (refName : string)
  : outcome Reference :=
  ResolveReference r refName.

(** The loop over [origin.Config().Fetch].  [ref] is the variable of the
    same name: the loop reads [ref.Name()] and overwrites [ref] with the
    result of each resolution, which is [nil] after a failed one.  The
    result [Ok (Some ref)] is [return ref, nil]; [Ok None] is the end of the
    loop. *)
Fixpoint fetchLoop `{GitLibrary} (r : Repository) (ref : option Reference)
    (fetch : list string) : outcome (option Reference) :=
  match fetch with
  | [] => Ok None
  | rs :: rest =>
      let rs := Reverse rs in
      do cur <- orPanic ref;
      if Match rs (refName cur) then
        let localRefName := Dst rs (refName cur) in
        match localRefName with
        | EmptyString => Panic          (* localRefName[0] *)
        | String c tail =>
            let localRefName :=
              if Ascii.eqb c "+" then tail else localRefName in
            match tryResolve r localRefName with
            | Ok ref' => Ok (Some ref')
            | Err _ => fetchLoop r None rest
            | Panic => Panic
            end
        end
      else fetchLoop r ref rest
  end.

Definition errDefaultBranch : error :=
  errorString "failed to get default branch".

Definition viaOrigin `{GitLibrary} (r : Repository) : outcome Reference :=
  match RemoteFetch r "origin" with
  | Ok fetch =>
      match tryResolve r "refs/remotes/origin/HEAD" with
      | Ok ref =>
          match fetchLoop r (Some ref) fetch with
          | Ok (Some ref') => Ok ref'
          | Ok None => Err errDefaultBranch
          | Err e => Err e
          | Panic => Panic
          end
      | Err _ => Err errDefaultBranch
      | Panic => Panic
      end
  | Err _ => Err errDefaultBranch
  | Panic => Panic
  end.

Definition getDefaultBranch `{GitLibrary} (r : Repository)
    (defaultBranch : string) : outcome Reference :=
  match tryResolve r defaultBranch with
  | Ok ref => Ok ref
  | Panic => Panic
  | Err _ =>
      if negb (String.eqb defaultBranch Master) then
        match tryResolve r Master with
        | Ok ref => Ok ref
        | Panic => Panic
        | Err _ => viaOrigin r
        end
      else viaOrigin r
  end.

(** ** getVersion *)

(** [*p]: a nil (or dangling) pointer panics. *)
Definition deref (p : ptr) (σ : store) : outcome semver.Version :=
  do l <- orPanic p;
  orPanic (σ !! l).

(** A pointer-receiver method that rewrites the object in place. *)
Definition mutate (f : semver.Version -> semver.Version) (p : ptr) (σ : store)
  : outcome store :=
  do l <- orPanic p;
  do v <- orPanic (σ !! l);
  Ok (<[l := f v]> σ).

(** The [switch] of the aggregation loop: the first flag that is set
    decides; a record without a flag is skipped. *)
Definition bumpOf (v : gitVersion)
  : option (semver.Version -> semver.Version) :=
  if MajorBump v then Some semver.BumpMajor
  else if MinorBump v then Some semver.BumpMinor
  else if PatchBump v then Some semver.BumpPatch
  else None.

Definition applyBump (v : gitVersion) (baseVersion : ptr) (σ : store)
  : outcome store :=
  match bumpOf v with
  | Some f => mutate f baseVersion σ
  | None => Ok σ
  end.

(** [for ; index >= 0; index-- { ... }] with [n = index + 1] iterations
    left: the next one reads [versionMap[n - 1]]. *)
Fixpoint bumpLoop (versionMap : list gitVersion) (n : nat) (baseVersion : ptr)
    (σ : store) : outcome store :=
  match n with
  | O => Ok σ
  | S index =>
      do v <- orPanic (versionMap !! index);
      do σ' <- applyBump v baseVersion σ;
      bumpLoop versionMap index baseVersion σ'
  end.

(** [fmt.Sprintf("%s-%d-%s", currentBranch, len(versionMap)-1, shortHash)]. *)
Definition prereleaseLabel (currentBranch : string) (count : Z)
    (shortHash : string) : string :=
  currentBranch +:+ "-" +:+ formatInt count +:+ "-" +:+ shortHash.

Definition setPreRelease (label : string) (v : semver.Version)
  : semver.Version :=
  semver.mkVersion (semver.Major v) (semver.Minor v) (semver.Patch v)
                   label (semver.Metadata v).

Definition behindMessage (baseVersion masterVersion : semver.Version)
  : string :=
  "Branch has calculated version '" +:+ semver.String_ baseVersion
    +:+ "' whose version is less than master '"
    +:+ semver.String_ masterVersion +:+ "'".

Definition errNoVersion : error :=
  errorString "Cannot determine version in branch".

(** The version assembler: [getVersion] from [var baseVersion] to its end,
    that is, everything after the two walks.  [count] below is
    [index + 1] after the optional [index--]. *)
Definition assemble (versionMap : list gitVersion) (masterVersion : ptr)
    (currentBranch : string) (h : Reference) (bs : BranchSettings)
    (σ : store) : outcome (ptr * store) :=
  match length versionMap with
  | O => Err errNoVersion
  | S index =>
      do last <- orPanic (versionMap !! index);
      let baseVersion := if IsSolid last then Name last else masterVersion in
      let count := if IsSolid last then index else S index in
      match count with
      | O => Ok (baseVersion, σ)
      | S _ =>
          do σ1 <- bumpLoop versionMap count baseVersion σ;
          do shortHash <- slicePrefix 4 (refHash h);
          let prerelease :=
            prereleaseLabel currentBranch
              (Z.of_nat (length versionMap) - 1) shortHash in
          do σ2 <- mutate (setPreRelease prerelease) baseVersion σ1;
          if ForbidBehindDefaultBranch bs then
            do b <- deref baseVersion σ2;
            do m <- deref masterVersion σ2;
            if semver.LessThan b m
            then Err (errorString (behindMessage b m))
            else Ok (baseVersion, σ2)
          else Ok (baseVersion, σ2)
      end
  end.

Definition getVersion `{GitLibrary} `{Walker} (env : environ)
    (r : Repository) (h : Reference) (tagMap : gmap string string)
    (bs : BranchSettings) (σ : store) : outcome (ptr * store) :=
  do currentBranch <- wrap "getVersion failed" (getCurrentBranch env r h bs);
  do defaultBranch <- getDefaultBranch r (DefaultBranch bs);
  do defaultHead <-
    wrap "failed to get master commit from reference"
         (CommitObject r (refHash defaultBranch));
  do mw <- GetVersion defaultHead tagMap σ;
  let masterVersion := fst mw in
  if String.eqb (refHash h) (refHash defaultBranch)
  then Ok (masterVersion, snd mw)
  else
    do c <- wrap "getVersion failed" (CommitObject r (refHash h));
    do bw <- GetVersionMap c tagMap (refHash defaultBranch) (snd mw);
    assemble (fst bw) masterVersion currentBranch h bs (snd bw).

(** ** GetCurrentVersion *)

(** The callback over the lightweight tags. *)
Definition lightweightStep (tagMap : gmap string string) (ref : Reference)
  : gmap string string :=
  <[refHash ref := Replace (refName ref) "refs/tags/" ""]> tagMap.

(** [tags.ForEach] over the annotated tags: the first failing [Commit()]
    stops the iteration with its wrapped error. *)
Fixpoint annotatedLoop (tags : list Tag) (tagMap : gmap string string)
  : outcome (gmap string string) :=
  match tags with
  | [] => Ok tagMap
  | ref :: rest =>
      do c <- wrap "get commit failed" (tagCommit ref);
      annotatedLoop rest (<[c := tagName ref]> tagMap)
  end.

(** The known-tag map of [GetCurrentVersion]: lightweight tags first, then
    annotated tags. *)
Definition buildTagMap (r : Repository) : outcome (gmap string string) :=
  do ltags <- wrap "get tags failed" (Tags r);
  let tagMap := fold_left lightweightStep ltags ∅ in
  do tags <- wrap "get tag objects failed" (TagObjects r);
  wrap "GetCurrentVersion failed" (annotatedLoop tags tagMap).

Definition GetCurrentVersion `{GitLibrary} `{Walker} (env : environ)
    (r : Repository) (bs : BranchSettings) : outcome string :=
  let shortcut :=
    match env !! "TRAVIS_TAG" with
    | Some tag =>
        if negb (IgnoreEnvVars bs) && negb (String.eqb tag "")
        then Some tag else None
    | None => None
    end in
  match shortcut with
  | Some tag =>
      do version <- parseTag tag;
      Ok (semver.String_ version)
  | None =>
      do tagMap <- buildTagMap r;
      do h <- wrap "GetCurrentVersion failed" (Head r);
      do res <- wrap "GetCurrentVersion failed" (getVersion env r h tagMap bs ∅);
      do v <- deref (fst res) (snd res);
      Ok (semver.String_ v)
  end.

(** ** Specification-side definitions

    These do not come from the code: they are the vocabulary in which the
    properties below are stated, each one related to the code by a lemma. *)

(** The maximal runs of a string, each tagged with the class of its
    characters ([true]: inside [[a-zA-Z0-9]]). *)
Fixpoint runs (s : string) : list (bool * string) :=
  match s with
  | EmptyString => []
  | String c s' =>
      match runs s' with
      | (k, run) :: rest =>
          if Bool.eqb k (isAlnum c)
          then (k, String c run) :: rest
          else (isAlnum c, String c EmptyString) :: (k, run) :: rest
      | [] => [(isAlnum c, String c EmptyString)]
      end
  end.

Fixpoint concatRuns (rs : list (bool * string)) : string :=
  match rs with
  | [] => EmptyString
  | (_, run) :: rest => run +:+ concatRuns rest
  end.

(** Sanitization as the specification words it: every maximal run outside
    the class becomes a single ["-"], every other run is kept. *)
Fixpoint renderRuns (rs : list (bool * string)) : string :=
  match rs with
  | [] => EmptyString
  | (k, run) :: rest => (if k then run else "-") +:+ renderRuns rest
  end.

Definition sanitizeSpec (s : string) : string := renderRuns (runs s).

Fixpoint allChars (P : ascii -> bool) (s : string) : bool :=
  match s with
  | EmptyString => true
  | String c s' => P c && allChars P s'
  end.

(** A run is well formed when it is not empty and all its characters are of
    the class it is tagged with. *)
Definition runOk (kr : bool * string) : Prop :=
  snd kr <> EmptyString
  /\ allChars (fun c => Bool.eqb (isAlnum c) (fst kr)) (snd kr) = true.

(** Neighbouring runs are of different classes: the runs are maximal. *)
Fixpoint alternating (rs : list (bool * string)) : Prop :=
  match rs with
  | kr :: ((kr' :: _) as rest) => fst kr <> fst kr' /\ alternating rest
  | _ => True
  end.

(** The effect of one record on the running version, as a pure function. *)
Definition bumpPure (v : gitVersion) (base : semver.Version)
  : semver.Version :=
  match bumpOf v with
  | Some f => f base
  | None => base
  end.

(** Right fold over the newest-first sequence: the last (oldest) record is
    applied first. *)
Definition foldBumps (base : semver.Version) (records : list gitVersion)
  : semver.Version :=
  foldr bumpPure base records.

(** The last (oldest) record of the sequence. *)
Definition oldest (versionMap : list gitVersion) : option gitVersion :=
  last versionMap.

(** The records that enter the aggregation: all but a solid oldest one. *)
Definition foldedRecords (versionMap : list gitVersion) : list gitVersion :=
  match oldest versionMap with
  | Some r => if IsSolid r then removelast versionMap else versionMap
  | None => []
  end.

(** The pointer the aggregation starts from. *)
Definition basePointer (versionMap : list gitVersion) (masterVersion : ptr)
  : ptr :=
  match oldest versionMap with
  | Some r => if IsSolid r then Name r else masterVersion
  | None => masterVersion
  end.

(** The numeric part of a version and its lexicographic order. *)
Definition numericTuple (v : semver.Version) : Z * Z * Z :=
  (semver.Major v, semver.Minor v, semver.Patch v).

Definition numericLt (a b : semver.Version) : Prop :=
  semver.Major a < semver.Major b
  \/ (semver.Major a = semver.Major b /\ semver.Minor a < semver.Minor b)
  \/ (semver.Major a = semver.Major b /\ semver.Minor a = semver.Minor b
      /\ semver.Patch a < semver.Patch b).

(** The safety check at the end of the assembler, on the assembled version
    [a] stored at [b]. *)
Definition policyCheck (bs : BranchSettings) (b : loc) (a : semver.Version)
    (masterVersion : ptr) (σ : store) : outcome (ptr * store) :=
  if ForbidBehindDefaultBranch bs then
    do m <- deref masterVersion σ;
    if semver.LessThan a m
    then Err (errorString (behindMessage a m))
    else Ok (Some b, σ)
  else Ok (Some b, σ).

(** The label the assembler attaches. *)
Definition labelOf (versionMap : list gitVersion) (currentBranch : string)
    (h : Reference) : string :=
  prereleaseLabel currentBranch (Z.of_nat (length versionMap) - 1)
                  (substring 0 4 (refHash h)).

(** The calls of [getVersion] that precede the assembler all succeed, on a
    head that is not the default branch's: [currentBranch], [masterVersion]
    and [versionMap] are what they hand to it, [σ] is the store after the
    two walks. *)
Definition reachesAssembler `{GitLibrary} `{Walker} (env : environ)
    (r : Repository) (h : Reference) (tagMap : gmap string string)
    (bs : BranchSettings) (σ0 : store) (currentBranch : string)
    (masterVersion : ptr) (versionMap : list gitVersion) (σ : store) : Prop :=
  exists (defaultBranch : Reference) (defaultHead c : Commit) (σ1 : store),
    getCurrentBranch env r h bs = Ok currentBranch
    /\ getDefaultBranch r (DefaultBranch bs) = Ok defaultBranch
    /\ CommitObject r (refHash defaultBranch) = Ok defaultHead
    /\ GetVersion defaultHead tagMap σ0 = Ok (masterVersion, σ1)
    /\ refHash h <> refHash defaultBranch
    /\ CommitObject r (refHash h) = Ok c
    /\ GetVersionMap c tagMap (refHash defaultBranch) σ1 = Ok (versionMap, σ).

(** ** Concrete collaborators for the examples *)

(** Cuts a string at the first occurrence of a character. *)
Fixpoint cutAt (sep : ascii) (s : string) : string * string :=
  match s with
  | EmptyString => (EmptyString, EmptyString)
  | String c s' =>
      if Ascii.eqb c sep then (EmptyString, s')
      else let '(a, b) := cutAt sep s' in (String c a, b)
  end.

Definition dropForce (s : string) : string :=
  match s with
  | String c s' => if Ascii.eqb c "+" then s' else s
  | EmptyString => s
  end.

(** A refspec side of the form [prefix*]. *)
Definition globPrefix (side : string) : string := fst (cutAt "*" side).

(** Reference names and wildcard refspecs [src/*:dst/*] as git writes
    them. *)
Definition exampleLibrary : GitLibrary := {|
  IsBranch := fun n => HasPrefix n "refs/heads/";
  Short := fun n =>
    match stripPrefix "refs/heads/" n with Some s => s | None => n end;
  Reverse := fun rs => let '(a, b) := cutAt ":" rs in b +:+ ":" +:+ a;
  Match := fun rs n =>
    HasPrefix n (globPrefix (dropForce (fst (cutAt ":" rs))));
  Dst := fun rs n =>
    match stripPrefix (globPrefix (dropForce (fst (cutAt ":" rs)))) n with
    | Some rest => globPrefix (snd (cutAt ":" rs)) +:+ rest
    | None => snd (cutAt ":" rs)
    end
|}.

(** A walker with fixed answers. *)
Definition fixedWalker (masterVersion : ptr) (versionMap : list gitVersion)
    (σ' : store) : Walker := {|
  GetVersion := fun _ _ _ => Ok (masterVersion, σ');
  GetVersionMap := fun _ _ _ _ => Ok (versionMap, σ');
  parseTag := fun _ => Err (errorString "invalid tag")
|}.

Definition errNotFound : error := errorString "reference not found".

Definition hashA : string := "a1b2c3d4e5f60718293a4b5c6d7e8f9012345678".
Definition hashB : string := "0f1e2d3c4b5a69788796a5b4c3d2e1f001234567".

(** A record without solid tag and without bump. *)
Definition plainRecord (commit : string) : gitVersion :=
  mkGitVersion false None false false false commit.

Definition solidRecord (name : loc) (commit : string) : gitVersion :=
  mkGitVersion true (Some name) false false false commit.

Definition v100 : semver.Version := semver.mkVersion 1 0 0 "" "".

(** A detached checkout of a clone whose default branch is [main]: only the
    remote-tracking references exist, and origin fetches branches and
    tags. *)
Definition detachedClone : Repository := {|
  Tags := Ok [];
  TagObjects := Ok [];
  Head := Ok (mkReference "HEAD" hashA);
  References := Ok [mkReference "refs/remotes/origin/main" hashA];
  ResolveReference := fun n =>
    if String.eqb n "refs/remotes/origin/HEAD"
    then Ok (mkReference "refs/remotes/origin/main" hashA)
    else Err errNotFound;
  RemoteFetch := fun n =>
    if String.eqb n "origin"
    then Ok ["+refs/heads/*:refs/remotes/origin/*"; "+refs/tags/*:refs/tags/*"]
    else Err (errorString "remote not found");
  CommitObject := fun hash => Ok (mkCommit hash)
|}.

(** A working copy on the branch [feature/login]. *)
Definition featureCheckout : Repository := {|
  Tags := Ok [];
  TagObjects := Ok [];
  Head := Ok (mkReference "refs/heads/feature/login" hashA);
  References :=
    Ok [mkReference "refs/heads/master" hashB;
        mkReference "refs/heads/feature/login" hashA];
  ResolveReference := fun n =>
    if String.eqb n Master then Ok (mkReference Master hashB)
    else Err errNotFound;
  RemoteFetch := fun _ => Err (errorString "remote not found");
  CommitObject := fun hash => Ok (mkCommit hash)
|}.

(** The environment of a Travis push build of branch [develop]: the
    pull-request variable is set and empty. *)
Definition travisPushEnv : environ :=
  <["TRAVIS_PULL_REQUEST_BRANCH" := ""]> (<["TRAVIS_BRANCH" := "develop"]> ∅).


Definition topicHead : Reference :=
  mkReference "refs/heads/feature/login" hashA.

(** Settings with the safety check enabled. *)
Definition strict : BranchSettings := mkBranchSettings true false false Master.

(** Two version objects that both read 1.0.0: the default branch's at 1,
    the one of a tag at 2. *)
Definition twoVersions : store :=
  <[1%positive := v100]> (<[2%positive := v100]> ∅).

(** One commit without bump on top of a tagged commit. *)
Definition afterTag : list gitVersion :=
  [plainRecord hashA; solidRecord 2%positive hashB].

(** One commit without bump on top of the untagged head of the default
    branch. *)
Definition untagged : list gitVersion :=
  [plainRecord hashA; plainRecord hashB].

Definition majorRecord (commit : string) : gitVersion :=
  mkGitVersion false None true false false commit.

Definition minorRecord (commit : string) : gitVersion :=
  mkGitVersion false None false true false commit.

(** Settings with the safety check disabled. *)
Definition lenient : BranchSettings :=
  mkBranchSettings false false false Master.

(** A lightweight and an annotated tag on the same commit. *)
Definition doublyTagged : Repository := {|
  Tags := Ok [mkReference "refs/tags/v1.0.0-light" hashB];
  TagObjects := Ok [mkTag "v1.0.0" (Ok hashB)];
  Head := Ok (mkReference "refs/heads/master" hashB);
  References := Ok [mkReference "refs/heads/master" hashB];
  ResolveReference := fun n =>
    if String.eqb n Master then Ok (mkReference Master hashB)
    else Err errNotFound;
  RemoteFetch := fun _ => Err (errorString "remote not found");
  CommitObject := fun hash => Ok (mkCommit hash)
|}.

(** A bump of the major number on top of a tagged commit. *)
Definition majorAfterTag : list gitVersion :=
  [majorRecord hashA; solidRecord 2%positive hashB].

(** ** The commands (cmd/gogitver/cmd/root.go) *)

(** A [cobra.Command] as far as the handlers read it: the flags it defines,
    each with its current value as [Value.String()] prints it. *)
Abbreviation command := (gmap string string).

(** [strconv.ParseBool]; [None] is its syntax error. *)
Definition ParseBool (str : string) : option bool :=
  if existsb (String.eqb str) ["1"; "t"; "T"; "true"; "TRUE"; "True"]
  then Some true
  else if existsb (String.eqb str) ["0"; "f"; "F"; "false"; "FALSE"; "False"]
  then Some false
  else None.

(** [cmd.Flag(flagName)] is nil for a flag the command does not define, and
    reading its [Value] panics. *)
Definition getBoolFromFlag (cmd : command) (flagName : string)
  : outcome bool :=
  do value <- orPanic (cmd !! flagName);
  Ok (match ParseBool value with
      | Some result => result
      | None => false
      end).

Definition getBranchSettings (cmd : command) : outcome BranchSettings :=
  do fbm <- getBoolFromFlag cmd "forbid-behind-master";
  do trimPrefix <- getBoolFromFlag cmd "trim-branch-prefix";
  Ok (mkBranchSettings fbm trimPrefix false Master).

(** The flags that [init] defines, with their defaults. *)
Definition prereleaseCmd : command :=
  <["path" := "."]>
    (<["settings" := "./.gogitver.yaml"]>
       (<["trim-branch-prefix" := "false"]> (<["verbose" := "false"]> ∅))).

Definition rootCmd : command :=
  <["forbid-behind-master" := "false"]> prereleaseCmd.

(** [runRoot] on the repository and settings that [getRepoAndSettings] has
    opened (the settings are inside the [Walker]): what it prints. *)
Definition runRoot `{GitLibrary} `{Walker} (env : environ) (r : Repository)
    (cmd : command) : outcome string :=
  do v <- getBoolFromFlag cmd "verbose";
  do branchSettings <- getBranchSettings cmd;
  match GetCurrentVersion env r branchSettings with
  | Ok version => Ok (version +:+ String "010" "")
  | Err _ => Panic
  | Panic => Panic
  end.

(** [runPrerelease] with its flag read from the command. *)
Definition runPrereleaseCmd `{GitLibrary} (env : environ) (r : Repository)
    (cmd : command) : outcome string :=
  do trimPrefix <- getBoolFromFlag cmd "trim-branch-prefix";
  runPrerelease env r trimPrefix.

(** ** Further vocabulary *)

(** The characters of a sanitized name. *)
Definition labelChar (c : ascii) : bool := isAlnum c || Ascii.eqb c "-".

Definition startsWithDash (s : string) : bool :=
  match s with
  | String c _ => Ascii.eqb c "-"
  | EmptyString => false
  end.

(** No two neighbouring dashes. *)
Fixpoint noDoubleDash (s : string) : bool :=
  match s with
  | EmptyString => true
  | String c s' =>
      negb (Ascii.eqb c "-" && startsWithDash s') && noDoubleDash s'
  end.

(** The characters of the class, in order. *)
Fixpoint keepAlnum (s : string) : string :=
  match s with
  | EmptyString => EmptyString
  | String c s' =>
      if isAlnum c then String c (keepAlnum s') else keepAlnum s'
  end.

(** The reference of the scan does not name the head: it is no branch, or
    it points elsewhere. *)
Definition notAtHead `{GitLibrary} (h : Reference) (r' : Reference) : Prop :=
  IsBranch (refName r') && String.eqb (refHash r') (refHash h) = false.

(** None of the three branch signals is set. *)
Definition noBranchSignal (env : environ) : Prop :=
  env !! "TRAVIS_PULL_REQUEST_BRANCH" = None
  /\ env !! "TRAVIS_BRANCH" = None
  /\ env !! "CI_COMMIT_REF_NAME" = None.

(** The local name a reversed refspec gives for a remote-tracking name,
    without the force marker. *)
Definition localNameOf `{GitLibrary} (rs name : string) : option string :=
  match Dst (Reverse rs) name with
  | EmptyString => None
  | String c tail => Some (if Ascii.eqb c "+" then tail else String c tail)
  end.

(** The environment of a GitLab job on branch [release/2.x]. *)
Definition gitlabEnv : environ := <["CI_COMMIT_REF_NAME" := "release/2.x"]> ∅.

(** A clone with a local [main] and no [master]; origin also fetches pull
    requests, listed first. *)
Definition mainClone : Repository := {|
  Tags := Ok [];
  TagObjects := Ok [];
  Head := Ok (mkReference "refs/heads/main" hashA);
  References := Ok [mkReference "refs/heads/main" hashA];
  ResolveReference := fun n =>
    if String.eqb n "refs/remotes/origin/HEAD"
    then Ok (mkReference "refs/remotes/origin/main" hashA)
    else if String.eqb n "refs/heads/main"
    then Ok (mkReference "refs/heads/main" hashA)
    else Err errNotFound;
  RemoteFetch := fun n =>
    if String.eqb n "origin"
    then Ok ["+refs/pull/*:refs/remotes/pull/*";
             "+refs/heads/*:refs/remotes/origin/*"]
    else Err (errorString "remote not found");
  CommitObject := fun hash => Ok (mkCommit hash)
|}.

(** A repository without [master], without origin. *)
Definition isolated : Repository := {|
  Tags := Ok [];
  TagObjects := Ok [];
  Head := Ok (mkReference "refs/heads/main" hashA);
  References := Ok [mkReference "refs/heads/main" hashA];
  ResolveReference := fun _ => Err errNotFound;
  RemoteFetch := fun _ => Err (errorString "remote not found");
  CommitObject := fun hash => Ok (mkCommit hash)
|}.

(** A record that carries none of the three bump flags. *)
Definition noBump (v : gitVersion) : Prop := bumpOf v = None.

(** The components are non-negative and leave room for [n] increments. *)
Definition roomFor (n : nat) (v : semver.Version) : Prop :=
  0 <= semver.Major v /\ 0 <= semver.Minor v /\ 0 <= semver.Patch v
  /\ semver.Major v + Z.of_nat n < 2 ^ 63
  /\ semver.Minor v + Z.of_nat n < 2 ^ 63
  /\ semver.Patch v + Z.of_nat n < 2 ^ 63.

(** The working copy [featureCheckout] with the head at the default
    branch's commit. *)
Definition onDefaultHead : Reference :=
  mkReference "refs/heads/feature/login" hashB.

Definition atDefaultHead : Repository := {|
  Tags := Ok [];
  TagObjects := Ok [];
  Head := Ok onDefaultHead;
  References :=
    Ok [mkReference "refs/heads/master" hashB; onDefaultHead];
  ResolveReference := fun n =>
    if String.eqb n Master then Ok (mkReference Master hashB)
    else Err errNotFound;
  RemoteFetch := fun _ => Err (errorString "remote not found");
  CommitObject := fun hash => Ok (mkCommit hash)
|}.

(** A branch two commits behind in numbers: its tag reads 0.9.0. *)
Definition v090 : semver.Version := semver.mkVersion 0 9 0 "" "".

Definition olderTag : store :=
  <[1%positive := v100]> (<[2%positive := v090]> ∅).

(** [strings.Contains(s, old)]. *)
Fixpoint containsb (old s : string) : bool :=
  HasPrefix s old
  || match s with
     | EmptyString => false
     | String _ s' => containsb old s'
     end.

(** The spellings that [strconv.ParseBool] reads as true. *)
Definition trueSpellings : list string :=
  ["1"; "t"; "T"; "true"; "TRUE"; "True"].

(** An annotated tag whose object is no commit. *)
Definition errNotCommit : error := errorString "unsupported object type".

Definition treeTagged : Repository := {|
  Tags := Ok [mkReference "refs/tags/v1.0.0" hashB];
  TagObjects := Ok [mkTag "v0.9.0" (Ok hashA); mkTag "snapshot" (Err errNotCommit);
                    mkTag "v1.0.0" (Ok hashB)];
  Head := Ok (mkReference "refs/heads/master" hashB);
  References := Ok [mkReference "refs/heads/master" hashB];
  ResolveReference := fun n =>
    if String.eqb n Master then Ok (mkReference Master hashB)
    else Err errNotFound;
  RemoteFetch := fun _ => Err (errorString "remote not found");
  CommitObject := fun hash => Ok (mkCommit hash)
|}.

(** Two lightweight tags on one commit, no annotated tag. *)
Definition lightlyTagged : Repository := {|
  Tags := Ok [mkReference "refs/tags/v1.0.0-rc1" hashB;
              mkReference "refs/tags/v1.0.0" hashB];
  TagObjects := Ok [mkTag "v0.9.0" (Ok hashA)];
  Head := Ok (mkReference "refs/heads/master" hashB);
  References := Ok [mkReference "refs/heads/master" hashB];
  ResolveReference := fun n =>
    if String.eqb n Master then Ok (mkReference Master hashB)
    else Err errNotFound;
  RemoteFetch := fun _ => Err (errorString "remote not found");
  CommitObject := fun hash => Ok (mkCommit hash)
|}.

(** A walker whose tag parser reads one tag. *)
Definition taggedWalker : Walker := {|
  GetVersion := fun _ _ σ => Ok (None, σ);
  GetVersionMap := fun _ _ _ σ => Ok ([], σ);
  parseTag := fun tag =>
    if String.eqb tag "v2.1.0" then Ok (semver.mkVersion 2 1 0 "" "")
    else Err (errorString "invalid tag")
|}.

Definition travisTagEnv : environ := <["TRAVIS_TAG" := "v2.1.0"]> ∅.

(** The part of a version string after the numbers and the label. *)
Definition metadataSuffix (v : semver.Version) : string :=
  if String.eqb (semver.Metadata v) "" then ""
  else "+" +:+ semver.Metadata v.

(** The flags of a run with [--trim-branch-prefix]. *)
Definition trimmingRoot : command :=
  <["trim-branch-prefix" := "true"]> rootCmd.

Definition trimmingLabel : command :=
  <["trim-branch-prefix" := "true"]> prereleaseCmd.

(** [getRepoAndSettings].  The settings type and its two constructors
    belong to package [git] outside git.go; the file system answers are
    inputs: whether the [settings] flag was given on the command line,
    whether [os.Stat] finds the file, what [os.Open] and
    [gogit.PlainOpen] return.  Every failure is a [panic]. *)
Class SettingsLoader (Settings File : Type) : Type := {
  GetSettingsFromFile : File -> outcome Settings;
  GetDefaultSettings : Settings
}.

Record Disk (File : Type) : Type := mkDisk {
  settingsChanged : bool;            (* sf.Changed *)
  settingsFound : bool;              (* os.Stat: err == nil *)
  settingsOpen : outcome File;       (* os.Open *)
  repositoryOpen : outcome Repository (* gogit.PlainOpen *)
}.
Arguments mkDisk {File} _ _ _ _.
Arguments settingsChanged {File} _.
Arguments settingsFound {File} _.
Arguments settingsOpen {File} _.
Arguments repositoryOpen {File} _.

(** [panic(err)] on the error branch of a call. *)
Definition orElsePanic {A : Type} (m : outcome A) : outcome A :=
  match m with
  | Ok a => Ok a
  | Err _ => Panic
  | Panic => Panic
  end.

Definition getRepoAndSettings {Settings File : Type}
    `{SettingsLoader Settings File} (disk : Disk File)
  : outcome (Repository * Settings) :=
  do s <- (if settingsChanged disk || settingsFound disk
           then do f <- orElsePanic (settingsOpen disk);
                orElsePanic (GetSettingsFromFile f)
           else Ok GetDefaultSettings);
  do r <- orElsePanic (repositoryOpen disk);
  Ok (r, s).

(** Settings as the text of their file; the default is the empty text. *)
Definition textSettings : SettingsLoader string string := {|
  GetSettingsFromFile := fun f => Ok f;
  GetDefaultSettings := ""
|}.

(** * Properties *)

(** ** Branch-name sanitization *)

Lemma runs_concat (s : string) : concatRuns (runs s) = s.
Proof.
  induction s as [|c s IH]; simpl; [reflexivity|].
  destruct (runs s) as [|[k run] rest]; simpl in *.
  - now rewrite <- IH.
  - destruct (Bool.eqb k (isAlnum c)); simpl; now rewrite <- IH.
Qed.

Lemma runs_ok (s : string) : Forall runOk (runs s).
Proof.
  induction s as [|c s IH]; simpl; [constructor|].
  destruct (runs s) as [|[k run] rest].
  - repeat constructor; simpl; [discriminate|].
    now rewrite eqb_reflx.
  - inversion IH as [|? ? [Hne Hall] Hrest]; subst; simpl in *.
    destruct (Bool.eqb k (isAlnum c)) eqn:E.
    + constructor; [|assumption]. split; simpl; [discriminate|].
      apply eqb_prop in E. subst k. now rewrite eqb_reflx, Hall.
    + constructor; [|now constructor].
      split; simpl; [discriminate|]. now rewrite eqb_reflx.
Qed.

Lemma runs_alternating (s : string) : alternating (runs s).
Proof.
  induction s as [|c s IH]; cbn [runs]; [exact I|].
  destruct (runs s) as [|[k run] rest]; [exact I|].
  destruct (Bool.eqb k (isAlnum c)) eqn:E.
  - destruct rest; [exact I|]. exact IH.
  - split; [|exact IH]. cbn [fst]. intros Heq.
    rewrite Heq, eqb_reflx in E. discriminate E.
Qed.

(** The scanner agrees with the run decomposition; inside a run that has
    already been written, the rest of that run is dropped. *)
Lemma replaceRuns_runs (s : string) :
  replaceRuns false s = renderRuns (runs s)
  /\ replaceRuns true s
     = match runs s with
       | (false, _) :: rest => renderRuns rest
       | rs => renderRuns rs
       end.
Proof.
  induction s as [|c s [IHf IHt]]; simpl; [split; reflexivity|].
  destruct (runs s) as [|[k run] rest]; simpl in *.
  - destruct (isAlnum c); simpl; rewrite ?IHf, ?IHt; split; reflexivity.
  - destruct (isAlnum c), k; simpl; rewrite ?IHf, ?IHt; split; reflexivity.
Qed.

Lemma stripPrefix_app (p s rest : string) :
  stripPrefix p s = Some rest <-> s = p +:+ rest.
Proof.
  revert s. induction p as [|a p IH]; intros s; simpl.
  - split; [now intros [= ->] | now intros ->].
  - destruct s as [|b s]; [split; discriminate|].
    destruct (Ascii.eqb a b) eqn:E.
    + apply Ascii.eqb_eq in E. subst b. rewrite IH.
      split; [now intros -> | now intros [= ->]].
    + split; [discriminate|]. intros [= -> _].
      now rewrite Ascii.eqb_refl in E.
Qed.

Lemma stripPrefix_none (p s : string) :
  stripPrefix p s = None -> forall rest, s <> p +:+ rest.
Proof.
  intros H rest E. apply stripPrefix_app in E. congruence.
Qed.

(** C8. Sanitization replaces every maximal run of characters outside
    [[A-Za-z0-9]] with one ["-"] (the result is the rendering of the run
    decomposition of the input, which is made of non-empty, homogeneous,
    alternating runs that concatenate to the input); with prefix trimming
    one leading [feature-] or [hotfix-] is removed from the sanitized name;
    [feature/ABC-123] gives [feature-ABC-123], and [ABC-123] when
    trimming. *)
Theorem cleanseBranchName_sanitizes :
  (forall name : string,
      concatRuns (runs name) = name
      /\ Forall runOk (runs name)
      /\ alternating (runs name)
      /\ cleanseBranchName name false = Ok (sanitizeSpec name))
  /\ (forall name rest : string,
         sanitizeSpec name = "feature-" +:+ rest
         \/ sanitizeSpec name = "hotfix-" +:+ rest ->
         cleanseBranchName name true = Ok rest)
  /\ (forall name : string,
         (forall rest, sanitizeSpec name <> "feature-" +:+ rest) ->
         (forall rest, sanitizeSpec name <> "hotfix-" +:+ rest) ->
         cleanseBranchName name true = Ok (sanitizeSpec name))
  /\ cleanseBranchName "feature/ABC-123" false = Ok "feature-ABC-123"
  /\ cleanseBranchName "feature/ABC-123" true = Ok "ABC-123".
Proof.
  split; [|split; [|split; [|split; reflexivity]]].
  - intros name.
    split; [apply runs_concat|].
    split; [apply runs_ok|].
    split; [apply runs_alternating|].
    unfold cleanseBranchName, sanitizeSpec; simpl.
    now rewrite (proj1 (replaceRuns_runs name)).
  - intros name rest H.
    unfold cleanseBranchName; simpl.
    rewrite (proj1 (replaceRuns_runs name)). fold (sanitizeSpec name).
    unfold trimPrefixToken.
    destruct H as [H|H].
    + apply stripPrefix_app in H. now rewrite H.
    + destruct (stripPrefix "feature-" (sanitizeSpec name)) eqn:E.
      * apply stripPrefix_app in E. rewrite E in H. discriminate H.
      * apply stripPrefix_app in H. now rewrite H.
  - intros name Hf Hh.
    unfold cleanseBranchName; simpl.
    rewrite (proj1 (replaceRuns_runs name)). fold (sanitizeSpec name).
    unfold trimPrefixToken.
    destruct (stripPrefix "feature-" (sanitizeSpec name)) eqn:E.
    + apply stripPrefix_app in E. now apply Hf in E.
    + destruct (stripPrefix "hotfix-" (sanitizeSpec name)) eqn:E'.
      * apply stripPrefix_app in E'. now apply Hh in E'.
      * reflexivity.
Qed.

Lemma cleanseBranchName_sanitizes_witness :
  cleanseBranchName "hotfix/login..page" true = Ok "login-page"
  /\ cleanseBranchName "release/2.x" true = Ok "release-2-x".
Proof.
  destruct cleanseBranchName_sanitizes as (_ & Htrim & Hkeep & _).
  split.
  - apply Htrim. right. reflexivity.
  - apply (Hkeep "release/2.x"); intros rest; vm_compute; discriminate.
Defined.

(** ** Branch identity *)

(** The three signals are read in a fixed order and the first one that is
    set decides. *)
Lemma getCurrentBranch_signal_order `{GitLibrary} (env : environ)
    (r : Repository) (h : Reference) (bs : BranchSettings) :
  IgnoreEnvVars bs = false ->
  (forall name, env !! "TRAVIS_PULL_REQUEST_BRANCH" = Some name ->
     getCurrentBranch env r h bs = cleanseBranchName name (TrimBranchPrefix bs))
  /\ (forall name, env !! "TRAVIS_PULL_REQUEST_BRANCH" = None ->
        env !! "TRAVIS_BRANCH" = Some name ->
        getCurrentBranch env r h bs
        = cleanseBranchName name (TrimBranchPrefix bs))
  /\ (forall name, env !! "TRAVIS_PULL_REQUEST_BRANCH" = None ->
        env !! "TRAVIS_BRANCH" = None ->
        env !! "CI_COMMIT_REF_NAME" = Some name ->
        getCurrentBranch env r h bs
        = cleanseBranchName name (TrimBranchPrefix bs))
  /\ (env !! "TRAVIS_PULL_REQUEST_BRANCH" = None ->
      env !! "TRAVIS_BRANCH" = None ->
      env !! "CI_COMMIT_REF_NAME" = None ->
      getCurrentBranch env r h bs = scanReferences r h bs).
Proof.
  intros Hig. unfold getCurrentBranch. rewrite Hig. simpl.
  repeat split; intros; repeat match goal with
    | E : ?x = _ |- context [?x] => rewrite E
    end; reflexivity.
Qed.

(** The scan keeps the last branch reference that points at the head. *)
Lemma scan_last_match `{GitLibrary} (h : Reference)
    (before after : list Reference) (ref : Reference) (start : string) :
  IsBranch (refName ref) = true ->
  refHash ref = refHash h ->
  Forall (fun r' => IsBranch (refName r') && String.eqb (refHash r') (refHash h)
                    = false) after ->
  fold_left (scanStep h) (before ++ ref :: after) start = Short (refName ref).
Proof.
  intros Hb Hh Hafter. rewrite fold_left_app. simpl.
  unfold scanStep at 2. rewrite Hb, Hh, String.eqb_refl. simpl.
  induction Hafter as [|r' after Hr' _ IH]; simpl; [reflexivity|].
  unfold scanStep at 2. now rewrite Hr'.
Qed.

Lemma scan_no_match `{GitLibrary} (h : Reference) (refs : list Reference)
    (start : string) :
  Forall (fun r' => IsBranch (refName r') && String.eqb (refHash r') (refHash h)
                    = false) refs ->
  fold_left (scanStep h) refs start = start.
Proof.
  intros Hall. induction Hall as [|r' refs Hr' _ IH]; simpl; [reflexivity|].
  unfold scanStep at 2. now rewrite Hr'.
Qed.

(** Without a signal and without a branch at the head the resolver fails
    with its own error. *)
Lemma scanReferences_none `{GitLibrary} (r : Repository) (h : Reference)
    (bs : BranchSettings) (refs : list Reference) :
  References r = Ok refs ->
  Forall (fun r' => IsBranch (refName r') && String.eqb (refHash r') (refHash h)
                    = false) refs ->
  scanReferences r h bs = Err (errorString "Cannot determine branch").
Proof.
  intros Hr Hall. unfold scanReferences. rewrite Hr. simpl.
  now rewrite scan_no_match.
Qed.

(** The tag shortcut of [GetCurrentVersion] asks for a value that is set
    and not empty: an empty [TRAVIS_TAG] is passed over. *)
Lemma GetCurrentVersion_empty_tag_ignored `{GitLibrary} `{Walker}
    (env : environ) (r : Repository) (bs : BranchSettings) :
  env !! "TRAVIS_TAG" = Some "" ->
  GetCurrentVersion env r bs
  = (do tagMap <- buildTagMap r;
     do h <- wrap "GetCurrentVersion failed" (Head r);
     do res <- wrap "GetCurrentVersion failed"
                    (getVersion env r h tagMap bs ∅);
     do v <- deref (fst res) (snd res);
     Ok (semver.String_ v)).
Proof.
  intros E. unfold GetCurrentVersion. rewrite E. simpl.
  now rewrite andb_false_r.
Qed.

(** C7. A signal that is set but empty still short-circuits: with
    [TRAVIS_PULL_REQUEST_BRANCH] set to the empty string and
    [TRAVIS_BRANCH] set to [develop], the resolver answers the empty name
    and reads neither the second signal nor the references. *)
Theorem getCurrentBranch_empty_signal_wins `{GitLibrary} (r : Repository)
    (h : Reference) (forbid trim : bool) (defaultBranch : string) :
  getCurrentBranch travisPushEnv r h
    (mkBranchSettings forbid trim false defaultBranch) = Ok "".
Proof.
  unfold getCurrentBranch, travisPushEnv. simpl.
  rewrite lookup_insert_eq. now destruct trim.
Qed.

(** C10. When resolution succeeds, the [label] command prints the
    sanitized current-branch label on one line, and an empty line when that
    label is [master]. *)
Theorem runPrerelease_prints_label `{GitLibrary} (env : environ)
    (r : Repository) (trim : bool) (h : Reference) (label : string) :
  Head r = Ok h ->
  getCurrentBranch env r h (mkBranchSettings false trim false "") = Ok label ->
  (label = "master" ->
     runPrerelease env r trim = Ok (String "010" ""))
  /\ (label <> "master" ->
        runPrerelease env r trim = Ok (label +:+ String "010" "")).
Proof.
  intros Hh Hl. unfold runPrerelease, GetPrereleaseLabel.
  rewrite Hh. simpl. rewrite Hl.
  split; intros Hm.
  - now subst label.
  - apply String.eqb_neq in Hm. now rewrite Hm.
Qed.

Lemma runPrerelease_prints_label_witness :
  @runPrerelease exampleLibrary ∅ featureCheckout true
  = Ok ("login" +:+ String "010" "").
Proof.
  apply (@runPrerelease_prints_label exampleLibrary ∅ featureCheckout true
           (mkReference "refs/heads/feature/login" hashA) "login").
  - reflexivity.
  - vm_compute. reflexivity.
  - discriminate.
Defined.

(** ** Default branch *)

Lemma getDefaultBranch_preferred `{GitLibrary} (r : Repository)
    (preferred : string) (ref : Reference) :
  tryResolve r preferred = Ok ref ->
  getDefaultBranch r preferred = Ok ref.
Proof. intros E. unfold getDefaultBranch. now rewrite E. Qed.

Lemma getDefaultBranch_conventional `{GitLibrary} (r : Repository)
    (preferred : string) (e : error) (ref : Reference) :
  tryResolve r preferred = Err e ->
  preferred <> Master ->
  tryResolve r Master = Ok ref ->
  getDefaultBranch r preferred = Ok ref.
Proof.
  intros E Hne Em. unfold getDefaultBranch. rewrite E.
  apply String.eqb_neq in Hne. rewrite Hne. simpl. now rewrite Em.
Qed.

(** When the first two steps fail, the answer is the one of the origin
    step. *)
Lemma getDefaultBranch_falls_to_origin `{GitLibrary} (r : Repository)
    (preferred : string) (e1 e2 : error) :
  tryResolve r preferred = Err e1 ->
  tryResolve r Master = Err e2 ->
  getDefaultBranch r preferred = viaOrigin r.
Proof.
  intros E Em. unfold getDefaultBranch. rewrite E.
  destruct (negb (String.eqb preferred Master)); [now rewrite Em|reflexivity].
Qed.

(** The origin step with one matching fetch refspec: the symbolic head is
    mapped through the reversed refspec, a leading [+] is dropped, and the
    local name decides. *)
Lemma viaOrigin_single `{GitLibrary} (r : Repository) (rs : string)
    (head : Reference) (c : ascii) (tail : string) :
  RemoteFetch r "origin" = Ok [rs] ->
  tryResolve r "refs/remotes/origin/HEAD" = Ok head ->
  Match (Reverse rs) (refName head) = true ->
  Dst (Reverse rs) (refName head) = String c tail ->
  viaOrigin r
  = match tryResolve r (if Ascii.eqb c "+" then tail else String c tail) with
    | Ok ref => Ok ref
    | Err _ => Err errDefaultBranch
    | Panic => Panic
    end.
Proof.
  intros Hf Hh Hm Hd. unfold viaOrigin. rewrite Hf, Hh. simpl.
  rewrite Hm, Hd.
  now destruct (tryResolve r (if Ascii.eqb c "+" then tail else String c tail)).
Qed.

Lemma viaOrigin_no_remote `{GitLibrary} (r : Repository) (e : error) :
  RemoteFetch r "origin" = Err e -> viaOrigin r = Err errDefaultBranch.
Proof. intros E. unfold viaOrigin. now rewrite E. Qed.

(** C6. The three steps are tried in order, but the last one does not
    always end in the error: when origin has a second fetch refspec and the
    name obtained through the first one does not resolve, the loop reads the
    name of the reference it has just overwritten with nil, and the locator
    panics instead of returning [failed to get default branch]. *)
Theorem getDefaultBranch_panics_on_second_refspec `{GitLibrary}
    (r : Repository) (preferred rs1 rs2 : string) (rest : list string)
    (head : Reference) (e1 e2 e3 : error) (c : ascii) (tail : string) :
  tryResolve r preferred = Err e1 ->
  tryResolve r Master = Err e2 ->
  RemoteFetch r "origin" = Ok (rs1 :: rs2 :: rest) ->
  tryResolve r "refs/remotes/origin/HEAD" = Ok head ->
  Match (Reverse rs1) (refName head) = true ->
  Dst (Reverse rs1) (refName head) = String c tail ->
  tryResolve r (if Ascii.eqb c "+" then tail else String c tail) = Err e3 ->
  getDefaultBranch r preferred = Panic.
Proof.
  intros E1 E2 Hf Hh Hm Hd E3.
  rewrite (getDefaultBranch_falls_to_origin r preferred e1 e2 E1 E2).
  unfold viaOrigin. rewrite Hf, Hh. simpl.
  now rewrite Hm, Hd, E3.
Qed.

Lemma getDefaultBranch_panics_on_second_refspec_witness :
  @getDefaultBranch exampleLibrary detachedClone Master = Panic.
Proof.
  apply (@getDefaultBranch_panics_on_second_refspec exampleLibrary
           detachedClone Master
           "+refs/heads/*:refs/remotes/origin/*" "+refs/tags/*:refs/tags/*" []
           (mkReference "refs/remotes/origin/main" hashA)
           errNotFound errNotFound errNotFound
           "+"%char "refs/heads/main"); reflexivity.
Defined.

(** ** The version assembler *)

Lemma getVersion_assemble `{GitLibrary} `{Walker} (env : environ)
    (r : Repository) (h : Reference) (tagMap : gmap string string)
    (bs : BranchSettings) (σ0 σ : store) (currentBranch : string)
    (masterVersion : ptr) (versionMap : list gitVersion) :
  reachesAssembler env r h tagMap bs σ0 currentBranch masterVersion
                   versionMap σ ->
  getVersion env r h tagMap bs σ0
  = assemble versionMap masterVersion currentBranch h bs σ.
Proof.
  intros (d & dh & c & σ1 & Hcb & Hd & Hdh & Hmw & Hne & Hc & Hbw).
  unfold getVersion. rewrite Hcb, Hd. simpl. rewrite Hdh. simpl.
  rewrite Hmw. simpl.
  apply String.eqb_neq in Hne. rewrite Hne, Hc. simpl.
  now rewrite Hbw.
Qed.

Lemma mutate_at (f : semver.Version -> semver.Version) (l : loc) (σ : store)
    (v : semver.Version) :
  σ !! l = Some v -> mutate f (Some l) σ = Ok (<[l := f v]> σ).
Proof. intros E. unfold mutate. simpl. now rewrite E. Qed.

Lemma applyBump_at (r : gitVersion) (l : loc) (σ : store)
    (v : semver.Version) :
  σ !! l = Some v ->
  applyBump r (Some l) σ = Ok (<[l := bumpPure r v]> σ).
Proof.
  intros E. unfold applyBump, bumpPure.
  destruct (bumpOf r) as [f|].
  - now apply mutate_at.
  - now rewrite insert_id.
Qed.

(** The loop that counts [index] down is the right fold over the records
    it visits. *)
Lemma bumpLoop_fold (versionMap : list gitVersion) (n : nat) (l : loc) :
  forall (σ : store) (v0 : semver.Version),
    σ !! l = Some v0 ->
    (n <= length versionMap)%nat ->
    bumpLoop versionMap n (Some l) σ
    = Ok (<[l := foldBumps v0 (take n versionMap)]> σ).
Proof.
  induction n as [|index IH]; intros σ v0 Hl Hn.
  - simpl. now rewrite insert_id.
  - destruct (lookup_lt_is_Some_2 versionMap index) as [r Hr]; [lia|].
    cbn [bumpLoop]. rewrite Hr. simpl.
    rewrite (applyBump_at r l σ v0 Hl). simpl.
    rewrite (IH _ (bumpPure r v0)); [|apply lookup_insert_eq|lia].
    rewrite insert_insert_eq.
    rewrite (take_S_r _ _ _ Hr). unfold foldBumps.
    now rewrite foldr_app.
Qed.

Lemma oldest_lookup (versionMap : list gitVersion) (r : gitVersion) :
  oldest versionMap = Some r ->
  exists index, length versionMap = S index /\ versionMap !! index = Some r.
Proof.
  unfold oldest. rewrite last_lookup. intros E.
  destruct versionMap as [|x xs]; [discriminate|].
  exists (length xs). split; [reflexivity|exact E].
Qed.

Lemma oldest_snoc (front : list gitVersion) (r : gitVersion) :
  oldest (front ++ [r]) = Some r.
Proof. unfold oldest. apply last_snoc. Qed.

Lemma foldedRecords_snoc (front : list gitVersion) (r : gitVersion) :
  foldedRecords (front ++ [r])
  = if IsSolid r then front else front ++ [r].
Proof.
  unfold foldedRecords. rewrite oldest_snoc.
  destruct (IsSolid r); [apply removelast_last|reflexivity].
Qed.

Lemma basePointer_snoc (front : list gitVersion) (r : gitVersion) (m : ptr) :
  basePointer (front ++ [r]) m = if IsSolid r then Name r else m.
Proof. unfold basePointer. now rewrite oldest_snoc. Qed.

(** The assembler on a sequence that leaves something to fold: the
    aggregation starts from the object at the base pointer, runs over the
    folded records, the label is attached, and the safety check decides. *)
Lemma assemble_folds (versionMap : list gitVersion) (masterVersion : ptr)
    (currentBranch : string) (h : Reference) (bs : BranchSettings)
    (σ : store) (b : loc) (v0 : semver.Version) :
  basePointer versionMap masterVersion = Some b ->
  σ !! b = Some v0 ->
  foldedRecords versionMap <> [] ->
  (4 <= String.length (refHash h))%nat ->
  assemble versionMap masterVersion currentBranch h bs σ
  = policyCheck bs b
      (setPreRelease (labelOf versionMap currentBranch h)
                     (foldBumps v0 (foldedRecords versionMap)))
      masterVersion
      (<[b := setPreRelease (labelOf versionMap currentBranch h)
                            (foldBumps v0 (foldedRecords versionMap))]> σ).
Proof.
  intros Hb Hv0 Hne Hlen.
  destruct (oldest versionMap) as [r|] eqn:Hold;
    [|unfold foldedRecords in Hne; now rewrite Hold in Hne].
  destruct (oldest_lookup _ _ Hold) as (index & Hlength & Hr).
  unfold basePointer in Hb. unfold foldedRecords in *. rewrite Hold in *.
  unfold assemble, labelOf. rewrite Hlength, Hr. cbn [orPanic bind].
  assert (Hloop : forall n, (n <= length versionMap)%nat ->
            bumpLoop versionMap n (Some b) σ
            = Ok (<[b := foldBumps v0 (take n versionMap)]> σ))
    by (intros n Hn; now apply bumpLoop_fold).
  assert (Hfinish : forall (records : list gitVersion) (count : nat),
    take count versionMap = records ->
    (count <= length versionMap)%nat ->
    (do σ1 <- bumpLoop versionMap count (Some b) σ;
     do shortHash <- slicePrefix 4 (refHash h);
     do σ2 <- mutate
         (setPreRelease
            (prereleaseLabel currentBranch (Z.of_nat (S index) - 1) shortHash))
         (Some b) σ1;
     if ForbidBehindDefaultBranch bs then
       do b0 <- deref (Some b) σ2;
       do m <- deref masterVersion σ2;
       if semver.LessThan b0 m
       then Err (errorString (behindMessage b0 m))
       else Ok (Some b, σ2)
     else Ok (Some b, σ2))
    = policyCheck bs b
        (setPreRelease
           (prereleaseLabel currentBranch (Z.of_nat (S index) - 1)
                            (substring 0 4 (refHash h)))
           (foldBumps v0 records))
        masterVersion
        (<[b := setPreRelease
                  (prereleaseLabel currentBranch (Z.of_nat (S index) - 1)
                                   (substring 0 4 (refHash h)))
                  (foldBumps v0 records)]> σ)).
  { intros records count Htake Hcount.
    rewrite (Hloop count Hcount), Htake. cbn [bind].
    unfold slicePrefix.
    destruct (Nat.leb_spec 4 (String.length (refHash h))) as [_|Hlt]; [|lia].
    cbn [bind].
    rewrite (mutate_at _ b _ (foldBumps v0 records)) by apply lookup_insert_eq.
    cbn [bind]. rewrite insert_insert_eq.
    unfold policyCheck, deref at 1. cbn [orPanic bind].
    destruct (ForbidBehindDefaultBranch bs); [|reflexivity].
    now rewrite lookup_insert_eq. }
  destruct (IsSolid r).
  - rewrite Hb.
    assert (Htake : take index versionMap = removelast versionMap).
    { rewrite removelast_firstn_len, Hlength. reflexivity. }
    destruct index as [|k].
    + exfalso. apply Hne. rewrite <- Htake. reflexivity.
    + apply Hfinish; [exact Htake|lia].
  - subst masterVersion. apply Hfinish; [|lia].
    apply take_ge. lia.
Qed.

(** ** Ordering of versions *)

Lemma strCompare_refl (s : string) : strCompare s s = Eq.
Proof.
  unfold strCompare. pose proof (String.compare_antisym s s) as E.
  destruct (String.compare s s); simpl in E; congruence.
Qed.

Lemma recursivePreReleaseCompare_refl (ids : list string) :
  semver.recursivePreReleaseCompare ids ids = 0.
Proof.
  induction ids as [|a ids IH]; [reflexivity|].
  cbn [semver.recursivePreReleaseCompare].
  rewrite strCompare_refl, IH.
  destruct (semver.Atoi a) as [x|]; [|reflexivity].
  destruct (Z.gtb_spec x x); [lia|].
  destruct (Z.ltb_spec x x); [lia|]. reflexivity.
Qed.

Lemma Compare_refl (v : semver.Version) : semver.Compare v v = 0.
Proof.
  unfold semver.Compare, semver.Slice. cbn [semver.recursiveCompare].
  repeat match goal with
  | |- context [?x >? ?x] => destruct (Z.gtb_spec x x); [lia|]
  | |- context [?x <? ?x] => destruct (Z.ltb_spec x x); [lia|]
  end.
  cbn. unfold semver.preReleaseCompare.
  destruct (String.length (semver.PreRelease v)) eqn:E; cbn;
    apply recursivePreReleaseCompare_refl.
Qed.

(** A version is never below itself. *)
Lemma LessThan_irrefl (v : semver.Version) : semver.LessThan v v = false.
Proof. unfold semver.LessThan. now rewrite Compare_refl. Qed.

Lemma recursiveCompare_cases (a1 a2 a3 b1 b2 b3 : Z) :
  let c := semver.recursiveCompare [a1; a2; a3] [b1; b2; b3] in
  (c = -1
   /\ (a1 < b1 \/ (a1 = b1 /\ a2 < b2) \/ (a1 = b1 /\ a2 = b2 /\ a3 < b3)))
  \/ (c = 0 /\ a1 = b1 /\ a2 = b2 /\ a3 = b3)
  \/ (c = 1
      /\ (a1 > b1 \/ (a1 = b1 /\ a2 > b2) \/ (a1 = b1 /\ a2 = b2 /\ a3 > b3))).
Proof.
  cbn.
  destruct (Z.gtb_spec a1 b1); [lia|].
  destruct (Z.ltb_spec a1 b1); [lia|].
  destruct (Z.gtb_spec a2 b2); [lia|].
  destruct (Z.ltb_spec a2 b2); [lia|].
  destruct (Z.gtb_spec a3 b3); [lia|].
  destruct (Z.ltb_spec a3 b3); lia.
Qed.

(** [LessThan] is the full precedence: the numbers first, the prerelease
    labels when the numbers agree. *)
Lemma LessThan_precedence (a m : semver.Version) :
  semver.LessThan a m = true
  <-> numericLt a m
      \/ (numericTuple a = numericTuple m /\ semver.preReleaseCompare a m < 0).
Proof.
  unfold semver.LessThan, semver.Compare, semver.Slice, numericLt,
    numericTuple.
  destruct (recursiveCompare_cases
              (semver.Major a) (semver.Minor a) (semver.Patch a)
              (semver.Major m) (semver.Minor m) (semver.Patch m))
    as [[-> Hlt]|[[-> (E1 & E2 & E3)]|[-> Hgt]]]; cbn.
  - split; [intros _; now left|reflexivity].
  - rewrite Z.ltb_lt, E1, E2, E3. split.
    + intros Hlt. right. split; [reflexivity|exact Hlt].
    + intros [Hlt|[_ Hlt]]; [lia|exact Hlt].
  - split; [discriminate|].
    intros [Hlt|[Ht _]]; [|injection Ht as ? ? ?]; exfalso; lia.
Qed.

Lemma length_append (s t : string) :
  String.length (s +:+ t) = (String.length s + String.length t)%nat.
Proof. induction s as [|c s IH]; simpl; [reflexivity|now rewrite IH]. Qed.

(** The label always contains its two separators. *)
Lemma prereleaseLabel_nonempty (currentBranch : string) (count : Z)
    (shortHash : string) :
  (0 < String.length (prereleaseLabel currentBranch count shortHash))%nat.
Proof.
  unfold prereleaseLabel. rewrite !length_append. simpl. lia.
Qed.

(** A labelled version is below an unlabelled one with the same numbers. *)
Lemma labelled_below_release (a m : semver.Version) :
  (0 < String.length (semver.PreRelease a))%nat ->
  semver.PreRelease m = "" ->
  semver.preReleaseCompare a m = -1.
Proof.
  intros Ha Hm. unfold semver.preReleaseCompare. rewrite Hm.
  destruct (String.length (semver.PreRelease a)); [lia|reflexivity].
Qed.

(** ** Aggregation *)

Lemma wrap64_succ (x : Z) :
  - 2 ^ 63 <= x < 2 ^ 63 - 1 -> wrap64 (x + 1) = x + 1.
Proof.
  intros Hx. unfold wrap64.
  rewrite Z.mod_small; lia.
Qed.

(** C5. The aggregation is the right fold over the newest-first sequence,
    so the oldest folded record acts first; a record flagged major, minor
    or patch adds one to that component (and to no other: the higher ones
    stay, the lower ones and the labels are reset), a record without flag
    leaves the version as it is. *)
Theorem bump_aggregation_oldest_first :
  (forall (versionMap : list gitVersion) (n : nat) (l : loc) (σ : store)
          (v0 : semver.Version),
      σ !! l = Some v0 ->
      (n <= length versionMap)%nat ->
      bumpLoop versionMap n (Some l) σ
      = Ok (<[l := foldBumps v0 (take n versionMap)]> σ))
  /\ (forall (newer : list gitVersion) (r : gitVersion) (v0 : semver.Version),
         foldBumps v0 (newer ++ [r]) = foldBumps (bumpPure r v0) newer)
  /\ (forall (r : gitVersion) (v : semver.Version),
         MajorBump r = true ->
         bumpPure r v
         = semver.mkVersion (wrap64 (semver.Major v + 1)) 0 0 "" "")
  /\ (forall (r : gitVersion) (v : semver.Version),
         MajorBump r = false -> MinorBump r = true ->
         bumpPure r v
         = semver.mkVersion (semver.Major v) (wrap64 (semver.Minor v + 1))
                            0 "" "")
  /\ (forall (r : gitVersion) (v : semver.Version),
         MajorBump r = false -> MinorBump r = false -> PatchBump r = true ->
         bumpPure r v
         = semver.mkVersion (semver.Major v) (semver.Minor v)
                            (wrap64 (semver.Patch v + 1)) "" "")
  /\ (forall (r : gitVersion) (v : semver.Version),
         MajorBump r = false -> MinorBump r = false -> PatchBump r = false ->
         bumpPure r v = v)
  /\ (forall x : Z, - 2 ^ 63 <= x < 2 ^ 63 - 1 -> wrap64 (x + 1) = x + 1)
  /\ foldBumps v100 [minorRecord hashA; majorRecord hashB]
     = semver.mkVersion 2 1 0 "" "".
Proof.
  split; [intros; now apply bumpLoop_fold|].
  split; [intros; unfold foldBumps; now rewrite foldr_app|].
  unfold bumpPure, bumpOf.
  split; [intros r v ->; reflexivity|].
  split; [intros r v -> ->; reflexivity|].
  split; [intros r v -> -> ->; reflexivity|].
  split; [intros r v -> -> ->; reflexivity|].
  split; [exact wrap64_succ|reflexivity].
Qed.

Lemma bump_aggregation_oldest_first_witness :
  bumpLoop [minorRecord hashA; majorRecord hashB] 2 (Some 1%positive)
           twoVersions
  = Ok (<[1%positive := foldBumps v100 [minorRecord hashA; majorRecord hashB]]>
          twoVersions).
Proof.
  destruct bump_aggregation_oldest_first as (Hloop & _).
  apply (Hloop [minorRecord hashA; majorRecord hashB] 2%nat 1%positive
               twoVersions v100).
  - reflexivity.
  - simpl. lia.
Defined.

(** ** Base version, label and safety check *)

(** The two cases of the base selection, on the assembler. *)
Lemma assemble_solid_folds (masterVersion : ptr) (currentBranch : string)
    (h : Reference) (bs : BranchSettings) (σ : store)
    (front : list gitVersion) (old : gitVersion) (b : loc)
    (v0 : semver.Version) :
  IsSolid old = true ->
  front <> [] ->
  Name old = Some b ->
  σ !! b = Some v0 ->
  (4 <= String.length (refHash h))%nat ->
  assemble (front ++ [old]) masterVersion currentBranch h bs σ
  = policyCheck bs b
      (setPreRelease (labelOf (front ++ [old]) currentBranch h)
                     (foldBumps v0 front))
      masterVersion
      (<[b := setPreRelease (labelOf (front ++ [old]) currentBranch h)
                            (foldBumps v0 front)]> σ).
Proof.
  intros Hsolid Hne Hname Hv0 Hlen.
  rewrite (assemble_folds _ _ _ _ _ _ b v0); try assumption.
  - now rewrite foldedRecords_snoc, Hsolid.
  - now rewrite basePointer_snoc, Hsolid.
  - now rewrite foldedRecords_snoc, Hsolid.
Qed.

Lemma assemble_plain_folds (currentBranch : string) (h : Reference)
    (bs : BranchSettings) (σ : store) (front : list gitVersion)
    (old : gitVersion) (l : loc) (v0 : semver.Version) :
  IsSolid old = false ->
  σ !! l = Some v0 ->
  (4 <= String.length (refHash h))%nat ->
  assemble (front ++ [old]) (Some l) currentBranch h bs σ
  = policyCheck bs l
      (setPreRelease (labelOf (front ++ [old]) currentBranch h)
                     (foldBumps v0 (front ++ [old])))
      (Some l)
      (<[l := setPreRelease (labelOf (front ++ [old]) currentBranch h)
                            (foldBumps v0 (front ++ [old]))]> σ).
Proof.
  intros Hsolid Hv0 Hlen.
  rewrite (assemble_folds _ _ _ _ _ _ l v0); try assumption.
  - now rewrite foldedRecords_snoc, Hsolid.
  - now rewrite basePointer_snoc, Hsolid.
  - rewrite foldedRecords_snoc, Hsolid. now destruct front.
Qed.

(** C4. On a non-empty sequence the base is the version of the oldest
    record when that record is solid, and the record is then left out of the
    aggregation (alone, it is returned as it is); otherwise the base is the
    default-branch version and every record is folded.  On an empty
    sequence the assembler fails with [Cannot determine version in
    branch]. *)
Theorem getVersion_base_selection `{GitLibrary} `{Walker} (env : environ)
    (r : Repository) (h : Reference) (tagMap : gmap string string)
    (bs : BranchSettings) (σ0 σ : store) (currentBranch : string)
    (masterVersion : ptr) (versionMap : list gitVersion) :
  reachesAssembler env r h tagMap bs σ0 currentBranch masterVersion
                   versionMap σ ->
  (versionMap = [] -> getVersion env r h tagMap bs σ0 = Err errNoVersion)
  /\ (forall (front : list gitVersion) (old : gitVersion),
         versionMap = front ++ [old] -> IsSolid old = true ->
         (front = [] -> getVersion env r h tagMap bs σ0 = Ok (Name old, σ))
         /\ (forall (b : loc) (v0 : semver.Version),
                front <> [] -> Name old = Some b -> σ !! b = Some v0 ->
                (4 <= String.length (refHash h))%nat ->
                getVersion env r h tagMap bs σ0
                = policyCheck bs b
                    (setPreRelease (labelOf versionMap currentBranch h)
                                   (foldBumps v0 front))
                    masterVersion
                    (<[b := setPreRelease (labelOf versionMap currentBranch h)
                                          (foldBumps v0 front)]> σ)))
  /\ (forall (front : list gitVersion) (old : gitVersion) (l : loc)
             (v0 : semver.Version),
         versionMap = front ++ [old] -> IsSolid old = false ->
         masterVersion = Some l -> σ !! l = Some v0 ->
         (4 <= String.length (refHash h))%nat ->
         getVersion env r h tagMap bs σ0
         = policyCheck bs l
             (setPreRelease (labelOf versionMap currentBranch h)
                            (foldBumps v0 (front ++ [old])))
             masterVersion
             (<[l := setPreRelease (labelOf versionMap currentBranch h)
                                   (foldBumps v0 (front ++ [old]))]> σ)).
Proof.
  intros Hreach. rewrite (getVersion_assemble _ _ _ _ _ _ _ _ _ _ Hreach).
  split; [now intros ->|]. split.
  - intros front old -> Hsolid. split.
    + intros ->. unfold assemble. simpl. now rewrite Hsolid.
    + intros b v0 Hne Hname Hv0 Hlen. now apply assemble_solid_folds.
  - intros front old l v0 -> Hsolid -> Hv0 Hlen.
    now apply assemble_plain_folds.
Qed.

Lemma featureCheckout_reaches (versionMap : list gitVersion) (σ : store)
    (bs : BranchSettings) :
  IgnoreEnvVars bs = false -> TrimBranchPrefix bs = false ->
  DefaultBranch bs = Master ->
  @reachesAssembler exampleLibrary
    (fixedWalker (Some 1%positive) versionMap σ)
    ∅ featureCheckout topicHead ∅ bs ∅
    "feature-login" (Some 1%positive) versionMap σ.
Proof.
  intros Hig Htrim Hdef.
  exists (mkReference Master hashB), (mkCommit hashB), (mkCommit hashA), σ.
  unfold getCurrentBranch, scanReferences. rewrite Hig, Htrim, Hdef.
  repeat split; try reflexivity. discriminate.
Qed.

Lemma getVersion_base_selection_witness :
  @getVersion exampleLibrary
    (fixedWalker (Some 1%positive) afterTag twoVersions)
    ∅ featureCheckout topicHead ∅ lenient ∅
  = Ok (Some 2%positive,
        <[2%positive := semver.mkVersion 1 0 0 "feature-login-1-a1b2" ""]>
          twoVersions).
Proof.
  destruct (@getVersion_base_selection exampleLibrary
              (fixedWalker (Some 1%positive) afterTag twoVersions)
              ∅ featureCheckout topicHead ∅ lenient ∅ twoVersions
              "feature-login" (Some 1%positive) afterTag
              (featureCheckout_reaches afterTag twoVersions lenient
                 eq_refl eq_refl eq_refl))
    as (_ & Hsolid & _).
  destruct (Hsolid [plainRecord hashA] (solidRecord 2%positive hashB)
                   eq_refl eq_refl) as (_ & Hfold).
  rewrite (Hfold 2%positive v100); [reflexivity|discriminate|reflexivity
                                    |reflexivity|simpl; lia].
Defined.

(** C3. When the oldest record is not solid, the base pointer is the
    default-branch pointer itself: the bumps and the label are written into
    the default-branch object, the returned pointer is that object, and the
    safety check reads the same object on both sides, so the assembler
    succeeds whatever [ForbidBehindDefaultBranch] says. *)
Theorem getVersion_shared_base_never_behind `{GitLibrary} `{Walker}
    (env : environ) (r : Repository) (h : Reference)
    (tagMap : gmap string string) (bs : BranchSettings) (σ0 σ : store)
    (currentBranch : string) (masterVersion : ptr)
    (versionMap : list gitVersion) (old : gitVersion) (l : loc)
    (v0 : semver.Version) :
  reachesAssembler env r h tagMap bs σ0 currentBranch masterVersion
                   versionMap σ ->
  oldest versionMap = Some old ->
  IsSolid old = false ->
  masterVersion = Some l ->
  σ !! l = Some v0 ->
  (4 <= String.length (refHash h))%nat ->
  basePointer versionMap masterVersion = masterVersion
  /\ foldedRecords versionMap = versionMap
  /\ getVersion env r h tagMap bs σ0
     = Ok (masterVersion,
           <[l := setPreRelease (labelOf versionMap currentBranch h)
                                (foldBumps v0 versionMap)]> σ).
Proof.
  intros Hreach Hold Hsolid -> Hv0 Hlen.
  assert (Hbase : basePointer versionMap (Some l) = Some l)
    by (unfold basePointer; now rewrite Hold, Hsolid).
  assert (Hfolded : foldedRecords versionMap = versionMap)
    by (unfold foldedRecords; now rewrite Hold, Hsolid).
  split; [exact Hbase|]. split; [exact Hfolded|].
  rewrite (getVersion_assemble _ _ _ _ _ _ _ _ _ _ Hreach).
  rewrite (assemble_folds _ _ _ _ _ _ l v0); try assumption.
  - rewrite Hfolded. unfold policyCheck, deref. cbn [orPanic bind].
    destruct (ForbidBehindDefaultBranch bs); [|reflexivity].
    rewrite lookup_insert_eq. cbn [orPanic bind].
    now rewrite LessThan_irrefl.
  - rewrite Hfolded. intros ->. discriminate Hold.
Qed.

Lemma getVersion_shared_base_never_behind_witness :
  @getVersion exampleLibrary
    (fixedWalker (Some 1%positive) untagged twoVersions)
    ∅ featureCheckout topicHead ∅ strict ∅
  = Ok (Some 1%positive,
        <[1%positive := semver.mkVersion 1 0 0 "feature-login-1-a1b2" ""]>
          twoVersions).
Proof.
  destruct (@getVersion_shared_base_never_behind exampleLibrary
              (fixedWalker (Some 1%positive) untagged twoVersions)
              ∅ featureCheckout topicHead ∅ strict ∅ twoVersions
              "feature-login" (Some 1%positive) untagged
              (plainRecord hashB) 1%positive v100
              (featureCheckout_reaches untagged twoVersions strict
                 eq_refl eq_refl eq_refl)
              eq_refl eq_refl eq_refl eq_refl)
    as (_ & _ & Hres); [simpl; lia|].
  rewrite Hres. reflexivity.
Defined.

(** With the check enabled and the base in an object of its own, the
    check compares the assembled version with the default-branch one. *)
Lemma policyCheck_distinct (bs : BranchSettings) (b l : loc)
    (a mv : semver.Version) (σ : store) :
  ForbidBehindDefaultBranch bs = true ->
  b <> l ->
  σ !! l = Some mv ->
  policyCheck bs b a (Some l) (<[b := a]> σ)
  = if semver.LessThan a mv
    then Err (errorString (behindMessage a mv))
    else Ok (Some b, <[b := a]> σ).
Proof.
  intros Hf Hne Hl. unfold policyCheck, deref. rewrite Hf.
  cbn [orPanic bind]. rewrite lookup_insert_ne by exact Hne.
  now rewrite Hl.
Qed.

(** C1, amended.  With [ForbidBehindDefaultBranch] enabled, a
    solid oldest record whose version object is not the default-branch
    object, and at least one folded record, the assembler fails with the
    behind-default error exactly when the assembled version, label
    included, precedes the default-branch version: its numbers are
    lexicographically smaller, or they are equal and its prerelease label
    orders below the default-branch one.  Otherwise it succeeds.  Against a
    default-branch version without label, equal numbers therefore fail. *)
Theorem getVersion_behind_check `{GitLibrary} `{Walker} (env : environ)
    (r : Repository) (h : Reference) (tagMap : gmap string string)
    (bs : BranchSettings) (σ0 σ : store) (currentBranch : string)
    (masterVersion : ptr) (versionMap front : list gitVersion)
    (old : gitVersion) (b l : loc) (v0 mv : semver.Version) :
  reachesAssembler env r h tagMap bs σ0 currentBranch masterVersion
                   versionMap σ ->
  ForbidBehindDefaultBranch bs = true ->
  versionMap = front ++ [old] ->
  front <> [] ->
  IsSolid old = true ->
  Name old = Some b ->
  masterVersion = Some l ->
  b <> l ->
  σ !! b = Some v0 ->
  σ !! l = Some mv ->
  (4 <= String.length (refHash h))%nat ->
  let a := setPreRelease (labelOf versionMap currentBranch h)
                         (foldBumps v0 front) in
  (getVersion env r h tagMap bs σ0 = Err (errorString (behindMessage a mv))
   <-> numericLt a mv
       \/ (numericTuple a = numericTuple mv
           /\ semver.preReleaseCompare a mv < 0))
  /\ (~ (numericLt a mv
         \/ (numericTuple a = numericTuple mv
             /\ semver.preReleaseCompare a mv < 0)) ->
      getVersion env r h tagMap bs σ0 = Ok (Some b, <[b := a]> σ))
  /\ (numericTuple a = numericTuple mv -> semver.PreRelease mv = "" ->
      getVersion env r h tagMap bs σ0
      = Err (errorString (behindMessage a mv))).
Proof.
  intros Hreach Hf Hvm Hne Hsolid Hname Hm Hbl Hv0 Hmv Hlen a.
  rewrite (getVersion_assemble _ _ _ _ _ _ _ _ _ _ Hreach).
  subst versionMap masterVersion.
  rewrite (assemble_solid_folds _ _ _ _ _ _ _ b v0 Hsolid Hne Hname Hv0 Hlen).
  fold a.
  rewrite (policyCheck_distinct bs b l a mv σ Hf Hbl Hmv).
  rewrite <- LessThan_precedence.
  destruct (semver.LessThan a mv) eqn:Hless.
  - split; [tauto|]. split; [intros Hn; now elim Hn|reflexivity].
  - split; [split; [discriminate|discriminate]|].
    split; [reflexivity|].
    intros Ht Hpre. exfalso.
    assert (Hlt : semver.LessThan a mv = true); [|congruence].
    apply LessThan_precedence. right. split; [exact Ht|].
    rewrite labelled_below_release; [lia| |exact Hpre].
    apply prereleaseLabel_nonempty.
Qed.

Lemma getVersion_behind_check_witness :
  @getVersion exampleLibrary
    (fixedWalker (Some 1%positive) majorAfterTag twoVersions)
    ∅ featureCheckout topicHead ∅ strict ∅
  = Ok (Some 2%positive,
        <[2%positive := semver.mkVersion 2 0 0 "feature-login-1-a1b2" ""]>
          twoVersions).
Proof.
  destruct (@getVersion_behind_check exampleLibrary
              (fixedWalker (Some 1%positive) majorAfterTag twoVersions)
              ∅ featureCheckout topicHead ∅ strict ∅ twoVersions
              "feature-login" (Some 1%positive) majorAfterTag
              [majorRecord hashA] (solidRecord 2%positive hashB)
              2%positive 1%positive v100 v100
              (featureCheckout_reaches majorAfterTag twoVersions strict
                 eq_refl eq_refl eq_refl)
              eq_refl eq_refl)
    as (_ & Hok & _);
    [discriminate|reflexivity|reflexivity|reflexivity|discriminate
    |reflexivity|reflexivity|simpl; lia|].
  rewrite Hok; [reflexivity|].
  intros [Hlt|[Ht _]].
  - vm_compute in Hlt. destruct Hlt as [Hlt|[[_ Hlt]|(_ & _ & Hlt)]];
      discriminate Hlt.
  - discriminate Ht.
Defined.

(** Against C1 with "equal numbers succeed": one commit without bump on top
    of a commit tagged 1.0.0, the default branch at 1.0.0.  The assembled
    version has the numbers of the default-branch version, and the
    assembler fails. *)
Lemma equal_numbers_are_behind :
  @getVersion exampleLibrary
    (fixedWalker (Some 1%positive) afterTag twoVersions)
    ∅ featureCheckout topicHead ∅ strict ∅
  = Err (errorString
           "Branch has calculated version '1.0.0-feature-login-1-a1b2' whose version is less than master '1.0.0'")
  /\ ForbidBehindDefaultBranch strict = true
  /\ numericTuple
       (setPreRelease (labelOf afterTag "feature-login" topicHead)
                      (foldBumps v100 (foldedRecords afterTag)))
     = numericTuple v100.
Proof. repeat split. Qed.

(** C2, amended.  Whenever something is folded, the label is
    [{branch}-{count}-{hash}] with [count] the length of the sequence minus
    one and [hash] the first four characters of the head's hash; [count] is
    the number of folded records when the oldest record is solid, and one
    less than that number when it is not. *)
Theorem getVersion_label_count `{GitLibrary} `{Walker} (env : environ)
    (r : Repository) (h : Reference) (tagMap : gmap string string)
    (bs : BranchSettings) (σ0 σ : store) (currentBranch : string)
    (masterVersion : ptr) (versionMap : list gitVersion) (old : gitVersion)
    (b : loc) (v0 : semver.Version) :
  reachesAssembler env r h tagMap bs σ0 currentBranch masterVersion
                   versionMap σ ->
  oldest versionMap = Some old ->
  basePointer versionMap masterVersion = Some b ->
  σ !! b = Some v0 ->
  foldedRecords versionMap <> [] ->
  (4 <= String.length (refHash h))%nat ->
  exists a : semver.Version,
    getVersion env r h tagMap bs σ0
    = policyCheck bs b a masterVersion (<[b := a]> σ)
    /\ numericTuple a = numericTuple (foldBumps v0 (foldedRecords versionMap))
    /\ semver.PreRelease a
       = prereleaseLabel currentBranch (Z.of_nat (length versionMap) - 1)
                         (substring 0 4 (refHash h))
    /\ Z.of_nat (length versionMap) - 1
       = if IsSolid old
         then Z.of_nat (length (foldedRecords versionMap))
         else Z.of_nat (length (foldedRecords versionMap)) - 1.
Proof.
  intros Hreach Hold Hb Hv0 Hne Hlen.
  exists (setPreRelease (labelOf versionMap currentBranch h)
                        (foldBumps v0 (foldedRecords versionMap))).
  split; [|split; [|split]].
  - rewrite (getVersion_assemble _ _ _ _ _ _ _ _ _ _ Hreach).
    apply (assemble_folds _ _ _ _ _ _ b v0); assumption.
  - reflexivity.
  - reflexivity.
  - destruct (oldest_lookup _ _ Hold) as (index & Hlength & _).
    unfold foldedRecords. rewrite Hold.
    destruct (IsSolid old); [|lia].
    rewrite removelast_firstn_len, length_take, Hlength. simpl. lia.
Qed.

Lemma getVersion_label_count_witness :
  exists a : semver.Version,
    @getVersion exampleLibrary
      (fixedWalker (Some 1%positive) afterTag twoVersions)
      ∅ featureCheckout topicHead ∅ lenient ∅
    = policyCheck lenient 2%positive a (Some 1%positive)
                  (<[2%positive := a]> twoVersions)
    /\ semver.PreRelease a = "feature-login-1-a1b2".
Proof.
  destruct (@getVersion_label_count exampleLibrary
              (fixedWalker (Some 1%positive) afterTag twoVersions)
              ∅ featureCheckout topicHead ∅ lenient ∅ twoVersions
              "feature-login" (Some 1%positive) afterTag
              (solidRecord 2%positive hashB) 2%positive v100
              (featureCheckout_reaches afterTag twoVersions lenient
                 eq_refl eq_refl eq_refl)
              eq_refl eq_refl eq_refl)
    as (a & Hres & _ & Hlabel & _); [discriminate|simpl; lia|].
  exists a. split; [exact Hres|exact Hlabel].
Defined.

(** Against C2 with "the count is the number of folded records": on a
    sequence of two commits without tag both records are folded, and the
    label counts one. *)
Lemma label_count_is_not_folded_count :
  @getVersion exampleLibrary
    (fixedWalker (Some 1%positive) untagged twoVersions)
    ∅ featureCheckout topicHead ∅ lenient ∅
  = Ok (Some 1%positive,
        <[1%positive := semver.mkVersion 1 0 0 "feature-login-1-a1b2" ""]>
          twoVersions)
  /\ foldedRecords untagged = untagged
  /\ length (foldedRecords untagged) = 2%nat
  /\ prereleaseLabel "feature-login"
       (Z.of_nat (length (foldedRecords untagged))) "a1b2"
     <> "feature-login-1-a1b2".
Proof. repeat split. discriminate. Qed.

(** ** The known-tag map *)

(** The loop over the annotated tags succeeds when every tag resolves to a
    commit, and leaves at each hash the name of the last annotated tag on
    that commit, or what was there before when there is none. *)
Lemma annotatedLoop_last (hash : string) (tags : list Tag) :
  Forall (fun t => exists c, tagCommit t = Ok c) tags ->
  forall tagMap : gmap string string,
  exists m : gmap string string,
    annotatedLoop tags tagMap = Ok m
    /\ ((exists (before : list Tag) (t : Tag) (after : list Tag),
            tags = before ++ t :: after
            /\ tagCommit t = Ok hash
            /\ Forall (fun t' => tagCommit t' <> Ok hash) after
            /\ m !! hash = Some (tagName t))
        \/ (Forall (fun t' => tagCommit t' <> Ok hash) tags
            /\ m !! hash = tagMap !! hash)).
Proof.
  induction 1 as [|t0 rest [c Hc] _ IH]; intros tagMap.
  - exists tagMap. split; [reflexivity|]. right. split; [constructor|reflexivity].
  - destruct (IH (<[c := tagName t0]> tagMap)) as (m & Hm & Hcases).
    exists m. split; [cbn [annotatedLoop]; rewrite Hc; exact Hm|].
    destruct Hcases as [(before & t & after & -> & Ht & Hafter & Hlook)
                       |[Hnone Hlook]].
    + left. exists (t0 :: before), t, after. repeat split; assumption.
    + destruct (decide (c = hash)) as [->|Hne].
      * left. exists [], t0, rest. repeat split; try assumption.
        rewrite Hlook. apply lookup_insert_eq.
      * right. split.
        -- constructor; [|assumption]. rewrite Hc. congruence.
        -- rewrite Hlook. now apply lookup_insert_ne.
Qed.

(** C9. When a lightweight and an annotated tag target the same commit,
    and the map is built (every annotated tag resolves to a commit), the map
    holds at that hash the name of an annotated tag, namely of the last
    annotated tag on that commit in enumeration order: the annotated tags
    are entered after the lightweight ones and overwrite them. *)
Theorem tagMap_annotated_wins (r : Repository) (ltags : list Reference)
    (tags : list Tag) (hash : string) :
  Tags r = Ok ltags ->
  TagObjects r = Ok tags ->
  Forall (fun t => exists c, tagCommit t = Ok c) tags ->
  (exists ref, In ref ltags /\ refHash ref = hash) ->
  (exists t, In t tags /\ tagCommit t = Ok hash) ->
  exists (m : gmap string string) (before : list Tag) (t : Tag)
         (after : list Tag),
    buildTagMap r = Ok m
    /\ tags = before ++ t :: after
    /\ tagCommit t = Ok hash
    /\ Forall (fun t' => tagCommit t' <> Ok hash) after
    /\ m !! hash = Some (tagName t).
Proof.
  intros Hl Ha Hall _ (t1 & Hin & Ht1).
  destruct (annotatedLoop_last hash tags Hall
              (fold_left lightweightStep ltags ∅)) as (m & Hm & Hcases).
  destruct Hcases as [(before & t & after & Htags & Ht & Hafter & Hlook)
                     |[Hnone _]].
  - exists m, before, t, after.
    split; [|repeat split; assumption].
    unfold buildTagMap. rewrite Hl, Ha. simpl. now rewrite Hm.
  - exfalso. rewrite Forall_forall in Hnone.
    apply (Hnone t1); [now apply list_elem_of_In|exact Ht1].
Qed.

Lemma tagMap_annotated_wins_witness :
  exists m : gmap string string,
    buildTagMap doublyTagged = Ok m /\ m !! hashB = Some "v1.0.0".
Proof.
  destruct (tagMap_annotated_wins doublyTagged
              [mkReference "refs/tags/v1.0.0-light" hashB]
              [mkTag "v1.0.0" (Ok hashB)] hashB eq_refl eq_refl)
    as (m & before & t & after & Hm & Htags & _ & _ & Hlook).
  - repeat constructor. now exists hashB.
  - exists (mkReference "refs/tags/v1.0.0-light" hashB).
    split; [now left|reflexivity].
  - exists (mkTag "v1.0.0" (Ok hashB)). split; [now left|reflexivity].
  - exists m. split; [exact Hm|].
    destruct before as [|t' [|t'' before]]; try discriminate Htags.
    injection Htags as <- _. exact Hlook.
Defined.

(** The map of the example, computed: the lightweight name is
    overwritten. *)
Example tagMap_doublyTagged :
  buildTagMap doublyTagged = Ok (<[hashB := "v1.0.0"]> ∅)
  /\ fold_left lightweightStep [mkReference "refs/tags/v1.0.0-light" hashB] ∅
     = <[hashB := "v1.0.0-light"]> (∅ : gmap string string).
Proof. split; reflexivity. Qed.

(** * Further properties *)

(** ** Sanitized names *)

Lemma dash_not_alnum (c : ascii) : Ascii.eqb c "-" = true -> isAlnum c = false.
Proof. intros E. apply Ascii.eqb_eq in E. now subst c. Qed.

Lemma replaceRuns_labelChars (s : string) :
  forall inRun : bool, allChars labelChar (replaceRuns inRun s) = true.
Proof.
  induction s as [|c s IH]; intros inRun; cbn [replaceRuns]; [reflexivity|].
  destruct (isAlnum c) eqn:E.
  - cbn [allChars]. unfold labelChar at 1. now rewrite E, IH.
  - destruct inRun; [apply IH|]. cbn [allChars]. now rewrite IH.
Qed.

Lemma replaceRuns_inRun_no_dash (s : string) :
  startsWithDash (replaceRuns true s) = false.
Proof.
  induction s as [|c s IH]; cbn [replaceRuns]; [reflexivity|].
  destruct (isAlnum c) eqn:E; [|exact IH].
  cbn [startsWithDash]. destruct (Ascii.eqb c "-") eqn:D; [|reflexivity].
  apply dash_not_alnum in D. congruence.
Qed.

Lemma replaceRuns_noDoubleDash (s : string) :
  forall inRun : bool, noDoubleDash (replaceRuns inRun s) = true.
Proof.
  induction s as [|c s IH]; intros inRun; cbn [replaceRuns]; [reflexivity|].
  destruct (isAlnum c) eqn:E.
  - cbn [noDoubleDash]. rewrite IH.
    destruct (Ascii.eqb c "-") eqn:D; [|reflexivity].
    apply dash_not_alnum in D. congruence.
  - destruct inRun; [apply IH|]. cbn [noDoubleDash].
    now rewrite replaceRuns_inRun_no_dash, IH.
Qed.

(** What holds of a string holds of what is left after a prefix. *)
Lemma stripPrefix_allChars (P : ascii -> bool) (p s rest : string) :
  stripPrefix p s = Some rest -> allChars P s = true -> allChars P rest = true.
Proof.
  revert s. induction p as [|a p IH]; intros s; cbn [stripPrefix].
  - now intros [= ->].
  - destruct s as [|b s]; [discriminate|].
    destruct (Ascii.eqb a b); [|discriminate].
    intros Hs Hall. cbn [allChars] in Hall.
    apply andb_true_iff in Hall. now apply (IH s).
Qed.

Lemma stripPrefix_noDoubleDash (p s rest : string) :
  stripPrefix p s = Some rest -> noDoubleDash s = true ->
  noDoubleDash rest = true.
Proof.
  revert s. induction p as [|a p IH]; intros s; cbn [stripPrefix].
  - now intros [= ->].
  - destruct s as [|b s]; [discriminate|].
    destruct (Ascii.eqb a b); [|discriminate].
    intros Hs Hall. cbn [noDoubleDash] in Hall.
    apply andb_true_iff in Hall. now apply (IH s).
Qed.

(** X1. Whatever the input and the trim flag, the sanitized name consists
    of letters, digits and dashes only, and never has two dashes in a
    row. *)
Theorem cleanseBranchName_label_safe (name : string) (trimPrefix : bool) :
  exists out : string,
    cleanseBranchName name trimPrefix = Ok out
    /\ allChars labelChar out = true
    /\ noDoubleDash out = true.
Proof.
  unfold cleanseBranchName.
  pose proof (replaceRuns_labelChars name false) as Hc.
  pose proof (replaceRuns_noDoubleDash name false) as Hd.
  destruct trimPrefix; cbn [negb]; [|eauto].
  eexists. split; [reflexivity|]. unfold trimPrefixToken.
  destruct (stripPrefix "feature-" (replaceRuns false name)) as [rest|] eqn:Ef.
  - split; [exact (stripPrefix_allChars _ _ _ _ Ef Hc)
           |exact (stripPrefix_noDoubleDash _ _ _ Ef Hd)].
  - destruct (stripPrefix "hotfix-" (replaceRuns false name)) as [rest|] eqn:Eh.
    + split; [exact (stripPrefix_allChars _ _ _ _ Eh Hc)
             |exact (stripPrefix_noDoubleDash _ _ _ Eh Hd)].
    + split; assumption.
Qed.

(** A name that is already sanitized is left as it is. *)
Lemma replaceRuns_fixed (s : string) :
  allChars labelChar s = true -> noDoubleDash s = true ->
  replaceRuns false s = s
  /\ (startsWithDash s = false -> replaceRuns true s = s).
Proof.
  induction s as [|c s IH]; [now split|].
  cbn [allChars noDoubleDash]. intros Hc Hd.
  apply andb_true_iff in Hc as [Hc Hcs].
  apply andb_true_iff in Hd as [Hd Hds].
  destruct (IH Hcs Hds) as [IHf IHt].
  cbn [replaceRuns startsWithDash]. unfold labelChar in Hc.
  destruct (isAlnum c) eqn:E.
  - rewrite IHf. now split.
  - cbn in Hc. split.
    + apply Ascii.eqb_eq in Hc. subst c. cbn in Hd.
      rewrite IHt; [reflexivity|]. now destruct (startsWithDash s).
    + congruence.
Qed.

(** X2. Sanitizing without trimming is idempotent, and trimming a sanitized
    name gives what sanitizing with trimming gives at once. *)
Theorem cleanseBranchName_idempotent (name out : string) :
  cleanseBranchName name false = Ok out ->
  cleanseBranchName out false = Ok out
  /\ cleanseBranchName out true = cleanseBranchName name true.
Proof.
  unfold cleanseBranchName. cbn [negb]. intros [= <-].
  destruct (replaceRuns_fixed (replaceRuns false name)
              (replaceRuns_labelChars name false)
              (replaceRuns_noDoubleDash name false)) as [Hfix _].
  now rewrite Hfix.
Qed.

Lemma cleanseBranchName_idempotent_witness :
  cleanseBranchName "feature-ABC-123" false = Ok "feature-ABC-123"
  /\ cleanseBranchName "feature-ABC-123" true
     = cleanseBranchName "feature/ABC--123" true.
Proof.
  apply (cleanseBranchName_idempotent "feature/ABC--123" "feature-ABC-123").
  reflexivity.
Defined.

Lemma replaceRuns_keepAlnum (s : string) :
  forall inRun : bool, keepAlnum (replaceRuns inRun s) = keepAlnum s.
Proof.
  induction s as [|c s IH]; intros inRun; cbn [replaceRuns keepAlnum];
    [reflexivity|].
  destruct (isAlnum c) eqn:E.
  - cbn [keepAlnum]. now rewrite E, IH.
  - destruct inRun; [apply IH|]. cbn [keepAlnum].
    change (isAlnum "-") with false. cbn. apply IH.
Qed.

Lemma replaceRuns_length (s : string) :
  forall inRun : bool,
    (String.length (replaceRuns inRun s) <= String.length s)%nat.
Proof.
  induction s as [|c s IH]; intros inRun; cbn [replaceRuns String.length];
    [lia|].
  destruct (isAlnum c); [specialize (IH false); cbn; lia|].
  destruct inRun; [specialize (IH true); lia|].
  specialize (IH true). cbn. lia.
Qed.

(** X3. Sanitizing without trimming keeps every letter and digit of the
    input, in order, and never makes the name longer. *)
Theorem cleanseBranchName_keeps_alnum (name out : string) :
  cleanseBranchName name false = Ok out ->
  keepAlnum out = keepAlnum name
  /\ (String.length out <= String.length name)%nat.
Proof.
  unfold cleanseBranchName. cbn [negb]. intros [= <-].
  split; [apply replaceRuns_keepAlnum|apply replaceRuns_length].
Qed.

Lemma cleanseBranchName_keeps_alnum_witness :
  keepAlnum "bug-4711-fix-it" = keepAlnum "bug/#4711: fix it"
  /\ (String.length "bug-4711-fix-it" <= String.length "bug/#4711: fix it")%nat.
Proof.
  apply (cleanseBranchName_keeps_alnum "bug/#4711: fix it" "bug-4711-fix-it").
  reflexivity.
Defined.

(** ** Branch names that reach the label *)

Lemma cleanseBranchName_safe (name out : string) (trimPrefix : bool) :
  cleanseBranchName name trimPrefix = Ok out ->
  allChars labelChar out = true /\ noDoubleDash out = true.
Proof.
  unfold cleanseBranchName.
  pose proof (replaceRuns_labelChars name false) as Hc.
  pose proof (replaceRuns_noDoubleDash name false) as Hd.
  destruct trimPrefix; cbn [negb]; intros [= <-]; [|now split].
  unfold trimPrefixToken.
  destruct (stripPrefix "feature-" (replaceRuns false name)) as [rest|] eqn:Ef.
  - split; [exact (stripPrefix_allChars _ _ _ _ Ef Hc)
           |exact (stripPrefix_noDoubleDash _ _ _ Ef Hd)].
  - destruct (stripPrefix "hotfix-" (replaceRuns false name)) as [rest|] eqn:Eh.
    + split; [exact (stripPrefix_allChars _ _ _ _ Eh Hc)
             |exact (stripPrefix_noDoubleDash _ _ _ Eh Hd)].
    + now split.
Qed.

(** X4. Every name the resolver returns, from a signal or from the scan, is
    sanitized: letters, digits and single dashes. *)
Theorem getCurrentBranch_label_safe `{GitLibrary} (env : environ)
    (r : Repository) (h : Reference) (bs : BranchSettings) (name : string) :
  getCurrentBranch env r h bs = Ok name ->
  allChars labelChar name = true /\ noDoubleDash name = true.
Proof.
  assert (Hscan : scanReferences r h bs = Ok name ->
                  allChars labelChar name = true /\ noDoubleDash name = true).
  { unfold scanReferences. destruct (References r) as [refs| |]; cbn [bind];
      try discriminate.
    destruct (String.eqb (fold_left (scanStep h) refs "") "");
      [discriminate|apply cleanseBranchName_safe]. }
  unfold getCurrentBranch.
  destruct (negb (IgnoreEnvVars bs)); [|exact Hscan].
  destruct (env !! "TRAVIS_PULL_REQUEST_BRANCH");
    [apply cleanseBranchName_safe|].
  destruct (env !! "TRAVIS_BRANCH"); [apply cleanseBranchName_safe|].
  destruct (env !! "CI_COMMIT_REF_NAME"); [apply cleanseBranchName_safe|].
  exact Hscan.
Qed.

Lemma getCurrentBranch_label_safe_witness :
  allChars labelChar "release-2-x" = true
  /\ noDoubleDash "release-2-x" = true.
Proof.
  apply (@getCurrentBranch_label_safe exampleLibrary gitlabEnv featureCheckout
           topicHead lenient "release-2-x").
  reflexivity.
Defined.

(** X5. When the signals are read and one of them is set, the environment
    alone decides: the resolver succeeds with the same name on every
    repository and head, and never looks at the references. *)
Theorem getCurrentBranch_signal_decides `{GitLibrary} (env : environ)
    (bs : BranchSettings) :
  IgnoreEnvVars bs = false ->
  ~ noBranchSignal env ->
  exists out : string,
    forall (r : Repository) (h : Reference),
      getCurrentBranch env r h bs = Ok out.
Proof.
  intros Hig Hsig. unfold getCurrentBranch, cleanseBranchName. rewrite Hig.
  cbn [negb].
  destruct (env !! "TRAVIS_PULL_REQUEST_BRANCH") as [n1|] eqn:E1.
  { destruct (TrimBranchPrefix bs); eexists; intros; reflexivity. }
  destruct (env !! "TRAVIS_BRANCH") as [n2|] eqn:E2.
  { destruct (TrimBranchPrefix bs); eexists; intros; reflexivity. }
  destruct (env !! "CI_COMMIT_REF_NAME") as [n3|] eqn:E3.
  { destruct (TrimBranchPrefix bs); eexists; intros; reflexivity. }
  exfalso. apply Hsig. now repeat split.
Qed.

Lemma getCurrentBranch_signal_decides_witness :
  exists out : string,
    forall (r : Repository) (h : Reference),
      @getCurrentBranch exampleLibrary gitlabEnv r h lenient = Ok out.
Proof.
  apply (@getCurrentBranch_signal_decides exampleLibrary gitlabEnv lenient).
  - reflexivity.
  - intros (_ & _ & Hci). discriminate Hci.
Defined.

Lemma getCurrentBranch_scans `{GitLibrary} (env : environ) (r : Repository)
    (h : Reference) (bs : BranchSettings) :
  IgnoreEnvVars bs = true \/ noBranchSignal env ->
  getCurrentBranch env r h bs = scanReferences r h bs.
Proof.
  unfold getCurrentBranch. intros [->|(E1 & E2 & E3)]; [reflexivity|].
  rewrite E1, E2, E3. now destruct (negb (IgnoreEnvVars bs)).
Qed.

Lemma scan_fold_last `{GitLibrary} (h : Reference)
    (before after : list Reference) (ref : Reference) (start : string) :
  IsBranch (refName ref) = true ->
  refHash ref = refHash h ->
  Forall (notAtHead h) after ->
  fold_left (scanStep h) (before ++ ref :: after) start = Short (refName ref).
Proof. exact (scan_last_match h before after ref start). Qed.

Lemma scan_fold_none `{GitLibrary} (h : Reference) (refs : list Reference)
    (start : string) :
  Forall (notAtHead h) refs -> fold_left (scanStep h) refs start = start.
Proof. exact (scan_no_match h refs start). Qed.

(** X6. Without a signal, the name comes from the last branch reference
    that points at the head's commit: other branches at the same commit that
    are enumerated earlier lose, and references that are no branches or
    point elsewhere do not count. *)
Theorem getCurrentBranch_last_branch_wins `{GitLibrary} (env : environ)
    (r : Repository) (h : Reference) (bs : BranchSettings)
    (before after : list Reference) (ref : Reference) :
  IgnoreEnvVars bs = true \/ noBranchSignal env ->
  References r = Ok (before ++ ref :: after) ->
  IsBranch (refName ref) = true ->
  refHash ref = refHash h ->
  Forall (notAtHead h) after ->
  Short (refName ref) <> "" ->
  getCurrentBranch env r h bs
  = cleanseBranchName (Short (refName ref)) (TrimBranchPrefix bs).
Proof.
  intros Hsig Hrefs Hb Hh Hafter Hshort.
  rewrite (getCurrentBranch_scans env r h bs Hsig).
  unfold scanReferences. rewrite Hrefs. cbn [bind].
  rewrite (scan_fold_last h before after ref "" Hb Hh Hafter).
  apply String.eqb_neq in Hshort. now rewrite Hshort.
Qed.

Lemma getCurrentBranch_last_branch_wins_witness :
  @getCurrentBranch exampleLibrary ∅ featureCheckout topicHead lenient
  = Ok "feature-login".
Proof.
  rewrite (@getCurrentBranch_last_branch_wins exampleLibrary ∅ featureCheckout
             topicHead lenient
             [mkReference "refs/heads/master" hashB] []
             (mkReference "refs/heads/feature/login" hashA));
    [reflexivity|right; now repeat split|reflexivity|reflexivity|reflexivity
    |constructor|discriminate].
Defined.

(** X7. On a detached head (no signal, no branch reference at the head's
    commit) the version cannot be computed: [GetCurrentVersion] fails with
    [Cannot determine branch], wrapped by [getVersion] and by itself, before
    the default branch is looked up and whatever the walker would answer. *)
Theorem GetCurrentVersion_detached_head `{GitLibrary} `{Walker}
    (env : environ) (r : Repository) (bs : BranchSettings)
    (tagMap : gmap string string) (h : Reference) (refs : list Reference) :
  env !! "TRAVIS_TAG" = None ->
  noBranchSignal env ->
  buildTagMap r = Ok tagMap ->
  Head r = Ok h ->
  References r = Ok refs ->
  Forall (notAtHead h) refs ->
  GetCurrentVersion env r bs
  = Err (withMessage
           (withMessage (errorString "Cannot determine branch")
                        "getVersion failed")
           "GetCurrentVersion failed").
Proof.
  intros Htag Hsig Hmap Hhead Hrefs Hnone.
  unfold GetCurrentVersion. rewrite Htag, Hmap, Hhead. cbn [bind wrap].
  unfold getVersion.
  rewrite (getCurrentBranch_scans env r h bs (or_intror Hsig)).
  unfold scanReferences. rewrite Hrefs. cbn [bind].
  now rewrite (scan_fold_none h refs "" Hnone).
Qed.

Lemma GetCurrentVersion_detached_head_witness :
  @GetCurrentVersion exampleLibrary
    (fixedWalker (Some 1%positive) untagged twoVersions) ∅ detachedClone strict
  = Err (withMessage
           (withMessage (errorString "Cannot determine branch")
                        "getVersion failed")
           "GetCurrentVersion failed").
Proof.
  apply (@GetCurrentVersion_detached_head exampleLibrary
           (fixedWalker (Some 1%positive) untagged twoVersions)
           ∅ detachedClone strict ∅ (mkReference "HEAD" hashA)
           [mkReference "refs/remotes/origin/main" hashA]);
    try reflexivity.
  - now repeat split.
  - repeat constructor.
Defined.

(** ** The default-branch locator, step by step *)

(** Once the loop variable is nil the loop can only end or panic. *)
Lemma fetchLoop_nil `{GitLibrary} (r : Repository) (fetch : list string) :
  fetchLoop r None fetch = match fetch with [] => Ok None | _ => Panic end.
Proof. now destruct fetch. Qed.

(** The loop over the refspecs has no error result of its own. *)
Lemma fetchLoop_no_error `{GitLibrary} (r : Repository)
    (fetch : list string) :
  forall (ref : option Reference) (e : error), fetchLoop r ref fetch <> Err e.
Proof.
  induction fetch as [|rs rest IH]; intros ref e; cbn [fetchLoop];
    [discriminate|].
  destruct ref as [cur|]; cbn [orPanic bind]; [|discriminate].
  destruct (Match (Reverse rs) (refName cur)); [|apply IH].
  destruct (Dst (Reverse rs) (refName cur)) as [|c tail]; [discriminate|].
  destruct (tryResolve r _); [discriminate|apply IH|discriminate].
Qed.

(** A reference that the loop returns was resolved from the local name of
    a refspec that matches the symbolic head. *)
Lemma fetchLoop_found `{GitLibrary} (r : Repository) (head ref : Reference)
    (fetch : list string) :
  fetchLoop r (Some head) fetch = Ok (Some ref) ->
  exists rs localName,
    In rs fetch
    /\ Match (Reverse rs) (refName head) = true
    /\ localNameOf rs (refName head) = Some localName
    /\ tryResolve r localName = Ok ref.
Proof.
  induction fetch as [|rs rest IH]; cbn [fetchLoop orPanic bind];
    [discriminate|].
  destruct (Match (Reverse rs) (refName head)) eqn:Hm.
  - destruct (Dst (Reverse rs) (refName head)) as [|c tail] eqn:Hd;
      [discriminate|].
    destruct (tryResolve r (if Ascii.eqb c "+" then tail else String c tail))
      as [ref'| |] eqn:Hr.
    + intros [= <-]. exists rs, (if Ascii.eqb c "+" then tail else String c tail).
      unfold localNameOf. rewrite Hd. repeat split; [now left|assumption..].
    + rewrite fetchLoop_nil. now destruct rest.
    + discriminate.
  - intros Hrest. destruct (IH Hrest) as (rs' & n & Hin & Hrs').
    exists rs', n. split; [now right|exact Hrs'].
Qed.

(** X8. A reference that the locator returns was resolved by the
    repository under the preferred name, under [refs/heads/master], or under
    the local name that a fetch refspec of origin gives for origin's head;
    the remote-tracking head itself is only used for that mapping. *)
Theorem getDefaultBranch_sound `{GitLibrary} (r : Repository)
    (preferred : string) (ref : Reference) :
  getDefaultBranch r preferred = Ok ref ->
  tryResolve r preferred = Ok ref
  \/ (preferred <> Master /\ tryResolve r Master = Ok ref)
  \/ exists fetch head rs localName,
       RemoteFetch r "origin" = Ok fetch
       /\ tryResolve r "refs/remotes/origin/HEAD" = Ok head
       /\ In rs fetch
       /\ Match (Reverse rs) (refName head) = true
       /\ localNameOf rs (refName head) = Some localName
       /\ tryResolve r localName = Ok ref.
Proof.
  assert (Horigin : viaOrigin r = Ok ref ->
    exists fetch head rs localName,
       RemoteFetch r "origin" = Ok fetch
       /\ tryResolve r "refs/remotes/origin/HEAD" = Ok head
       /\ In rs fetch
       /\ Match (Reverse rs) (refName head) = true
       /\ localNameOf rs (refName head) = Some localName
       /\ tryResolve r localName = Ok ref).
  { unfold viaOrigin.
    destruct (RemoteFetch r "origin") as [fetch| |]; try discriminate.
    destruct (tryResolve r "refs/remotes/origin/HEAD") as [head| |] eqn:Hh;
      try discriminate.
    destruct (fetchLoop r (Some head) fetch) as [[ref'|]| |] eqn:Hl;
      try discriminate.
    intros [= ->].
    destruct (fetchLoop_found r head ref fetch Hl) as (rs & n & Hrs).
    now exists fetch, head, rs, n. }
  unfold getDefaultBranch.
  destruct (tryResolve r preferred) as [ref1| |] eqn:H1; try discriminate.
  - intros [= ->]. now left.
  - destruct (String.eqb preferred Master) eqn:Hp; cbn [negb].
    + intros Hv. right. right. now apply Horigin.
    + destruct (tryResolve r Master) as [ref2| |] eqn:H2; try discriminate.
      * intros [= ->]. right. left. split; [|reflexivity].
        now apply String.eqb_neq.
      * intros Hv. right. right. now apply Horigin.
Qed.

Lemma getDefaultBranch_sound_witness :
  tryResolve featureCheckout Master = Ok (mkReference Master hashB)
  \/ (Master <> Master
      /\ tryResolve featureCheckout Master = Ok (mkReference Master hashB))
  \/ exists fetch head rs localName,
       RemoteFetch featureCheckout "origin" = Ok fetch
       /\ tryResolve featureCheckout "refs/remotes/origin/HEAD" = Ok head
       /\ In rs fetch
       /\ @Match exampleLibrary (@Reverse exampleLibrary rs) (refName head)
          = true
       /\ @localNameOf exampleLibrary rs (refName head) = Some localName
       /\ tryResolve featureCheckout localName = Ok (mkReference Master hashB).
Proof.
  apply (@getDefaultBranch_sound exampleLibrary featureCheckout Master
           (mkReference Master hashB)).
  reflexivity.
Defined.

(** X9. The locator has a single error: whatever made the three steps
    fail (a missing reference, a missing remote), the causes are dropped
    and the error is [failed to get default branch]. *)
Theorem getDefaultBranch_single_error `{GitLibrary} (r : Repository)
    (preferred : string) (e : error) :
  getDefaultBranch r preferred = Err e -> e = errDefaultBranch.
Proof.
  assert (Horigin : viaOrigin r = Err e -> e = errDefaultBranch).
  { unfold viaOrigin.
    destruct (RemoteFetch r "origin") as [fetch| |]; try discriminate;
      [|now intros [= <-]].
    destruct (tryResolve r "refs/remotes/origin/HEAD") as [head| |];
      try discriminate; [|now intros [= <-]].
    destruct (fetchLoop r (Some head) fetch) as [[ref'|]|e'|] eqn:Hl;
      try discriminate; [now intros [= <-]|].
    now apply fetchLoop_no_error in Hl. }
  unfold getDefaultBranch.
  destruct (tryResolve r preferred); try discriminate.
  destruct (negb (String.eqb preferred Master)); [|exact Horigin].
  destruct (tryResolve r Master); try discriminate. exact Horigin.
Qed.

Lemma getDefaultBranch_single_error_witness :
  errDefaultBranch = errDefaultBranch.
Proof.
  exact (eq_sym (@getDefaultBranch_single_error exampleLibrary isolated
                   "refs/heads/main" errDefaultBranch eq_refl)).
Defined.

(** The loop passes over the refspecs that do not match. *)
Lemma fetchLoop_skip `{GitLibrary} (r : Repository) (head : Reference)
    (skipped rest : list string) :
  Forall (fun rs => Match (Reverse rs) (refName head) = false) skipped ->
  fetchLoop r (Some head) (skipped ++ rest) = fetchLoop r (Some head) rest.
Proof.
  induction 1 as [|rs skipped Hrs _ IH]; [reflexivity|].
  cbn [app fetchLoop orPanic bind]. now rewrite Hrs.
Qed.

(** X10. When the preferred name and [refs/heads/master] do not resolve,
    the locator returns what the first matching fetch refspec of origin
    leads to, provided that local name resolves: the refspecs before it that
    do not match are passed over, the ones after it are not read. *)
Theorem getDefaultBranch_first_matching_refspec `{GitLibrary}
    (r : Repository) (preferred : string) (e1 e2 : error)
    (skipped rest : list string) (rs localName : string)
    (head ref : Reference) :
  tryResolve r preferred = Err e1 ->
  tryResolve r Master = Err e2 ->
  RemoteFetch r "origin" = Ok (skipped ++ rs :: rest) ->
  tryResolve r "refs/remotes/origin/HEAD" = Ok head ->
  Forall (fun rs' => Match (Reverse rs') (refName head) = false) skipped ->
  Match (Reverse rs) (refName head) = true ->
  localNameOf rs (refName head) = Some localName ->
  tryResolve r localName = Ok ref ->
  getDefaultBranch r preferred = Ok ref.
Proof.
  intros H1 H2 Hf Hh Hskip Hm Hn Hr.
  rewrite (getDefaultBranch_falls_to_origin r preferred e1 e2 H1 H2).
  unfold viaOrigin. rewrite Hf, Hh, (fetchLoop_skip r head skipped _ Hskip).
  cbn [fetchLoop orPanic bind]. rewrite Hm.
  unfold localNameOf in Hn.
  destruct (Dst (Reverse rs) (refName head)) as [|c tail]; [discriminate|].
  injection Hn as Hn. rewrite Hn. now rewrite Hr.
Qed.

Lemma getDefaultBranch_first_matching_refspec_witness :
  @getDefaultBranch exampleLibrary mainClone Master
  = Ok (mkReference "refs/heads/main" hashA).
Proof.
  apply (@getDefaultBranch_first_matching_refspec exampleLibrary mainClone
           Master errNotFound errNotFound
           ["+refs/pull/*:refs/remotes/pull/*"] []
           "+refs/heads/*:refs/remotes/origin/*" "refs/heads/main"
           (mkReference "refs/remotes/origin/main" hashA)
           (mkReference "refs/heads/main" hashA)); try reflexivity.
  repeat constructor.
Defined.

(** X11. When the first two steps fail, the locator returns its error (and
    does not panic) in each of these cases: there is no remote [origin];
    origin's head does not resolve; no fetch refspec matches origin's head;
    or the only matching refspec is the last one and its local name does not
    resolve. *)
Theorem getDefaultBranch_fails_cleanly `{GitLibrary} (r : Repository)
    (preferred : string) (e1 e2 : error) :
  tryResolve r preferred = Err e1 ->
  tryResolve r Master = Err e2 ->
  (exists e, RemoteFetch r "origin" = Err e)
  \/ (exists fetch e,
        RemoteFetch r "origin" = Ok fetch
        /\ tryResolve r "refs/remotes/origin/HEAD" = Err e)
  \/ (exists fetch head,
        RemoteFetch r "origin" = Ok fetch
        /\ tryResolve r "refs/remotes/origin/HEAD" = Ok head
        /\ Forall (fun rs => Match (Reverse rs) (refName head) = false) fetch)
  \/ (exists skipped rs head localName e,
        RemoteFetch r "origin" = Ok (skipped ++ [rs])
        /\ tryResolve r "refs/remotes/origin/HEAD" = Ok head
        /\ Forall (fun rs' => Match (Reverse rs') (refName head) = false)
                  skipped
        /\ localNameOf rs (refName head) = Some localName
        /\ tryResolve r localName = Err e) ->
  getDefaultBranch r preferred = Err errDefaultBranch.
Proof.
  intros H1 H2 Hcases.
  rewrite (getDefaultBranch_falls_to_origin r preferred e1 e2 H1 H2).
  unfold viaOrigin.
  destruct Hcases as [[e Hf]|[(fetch & e & Hf & Hh)|[(fetch & head & Hf & Hh & Hno)
                     |(skipped & rs & head & n & e & Hf & Hh & Hskip & Hn & Hr)]]].
  - now rewrite Hf.
  - now rewrite Hf, Hh.
  - rewrite Hf, Hh. rewrite <- (app_nil_r fetch).
    now rewrite (fetchLoop_skip r head fetch [] Hno).
  - rewrite Hf, Hh, (fetchLoop_skip r head skipped _ Hskip).
    cbn [fetchLoop orPanic bind]. unfold localNameOf in Hn.
    destruct (Match (Reverse rs) (refName head)); [|reflexivity].
    destruct (Dst (Reverse rs) (refName head)) as [|c tail]; [discriminate|].
    injection Hn as Hn. now rewrite Hn, Hr.
Qed.

Lemma getDefaultBranch_fails_cleanly_witness :
  @getDefaultBranch exampleLibrary isolated "refs/heads/main"
  = Err errDefaultBranch.
Proof.
  apply (@getDefaultBranch_fails_cleanly exampleLibrary isolated
           "refs/heads/main" errNotFound errNotFound); try reflexivity.
  left. now exists (errorString "remote not found").
Defined.

(** ** The assembler on the default head, without the check, and its
    footprint *)

(** X12. When the head's commit is the default branch's commit, the
    version is the one of the default-branch walk, as that walk left it: no
    label is attached, whatever branch name is checked out, whatever the
    second walk would return and whatever the safety flag says. *)
Theorem GetCurrentVersion_on_default_head `{GitLibrary} `{Walker}
    (env : environ) (r : Repository) (bs : BranchSettings)
    (tagMap : gmap string string) (h defaultBranch : Reference)
    (currentBranch : string) (defaultHead : Commit) (l : loc) (σ1 : store)
    (mv : semver.Version) :
  env !! "TRAVIS_TAG" = None ->
  buildTagMap r = Ok tagMap ->
  Head r = Ok h ->
  getCurrentBranch env r h bs = Ok currentBranch ->
  getDefaultBranch r (DefaultBranch bs) = Ok defaultBranch ->
  CommitObject r (refHash defaultBranch) = Ok defaultHead ->
  GetVersion defaultHead tagMap ∅ = Ok (Some l, σ1) ->
  σ1 !! l = Some mv ->
  refHash h = refHash defaultBranch ->
  getVersion env r h tagMap bs ∅ = Ok (Some l, σ1)
  /\ GetCurrentVersion env r bs = Ok (semver.String_ mv).
Proof.
  intros Htag Hmap Hhead Hcb Hd Hdh Hmw Hmv Heq.
  assert (Hv : getVersion env r h tagMap bs ∅ = Ok (Some l, σ1)).
  { unfold getVersion. rewrite Hcb, Hd. cbn [wrap bind]. rewrite Hdh.
    cbn [wrap bind]. rewrite Hmw. cbn [bind fst snd].
    now rewrite Heq, String.eqb_refl. }
  split; [exact Hv|].
  unfold GetCurrentVersion. rewrite Htag, Hmap, Hhead. cbn [wrap bind].
  rewrite Hv. cbn [wrap bind fst snd]. unfold deref. cbn [orPanic bind].
  now rewrite Hmv.
Qed.

Lemma GetCurrentVersion_on_default_head_witness :
  @GetCurrentVersion exampleLibrary
    (fixedWalker (Some 1%positive) untagged twoVersions) ∅ atDefaultHead strict
  = Ok "1.0.0".
Proof.
  apply (@GetCurrentVersion_on_default_head exampleLibrary
           (fixedWalker (Some 1%positive) untagged twoVersions)
           ∅ atDefaultHead strict ∅ onDefaultHead (mkReference Master hashB)
           "feature-login" (mkCommit hashB) 1%positive twoVersions v100);
    reflexivity.
Defined.

Lemma policyCheck_lenient (bs : BranchSettings) (b : loc)
    (a : semver.Version) (masterVersion : ptr) (σ : store) :
  ForbidBehindDefaultBranch bs = false ->
  policyCheck bs b a masterVersion σ = Ok (Some b, σ).
Proof. intros Hf. unfold policyCheck. now rewrite Hf. Qed.

(** X13. With [ForbidBehindDefaultBranch] off, the assembler succeeds on
    every non-empty sequence whose base pointer holds a version: it returns
    the base pointer, and the numbers at it are the base's numbers with the
    folded bumps applied, also when they are below the default branch's. *)
Theorem getVersion_lenient_succeeds `{GitLibrary} `{Walker} (env : environ)
    (r : Repository) (h : Reference) (tagMap : gmap string string)
    (bs : BranchSettings) (σ0 σ : store) (currentBranch : string)
    (masterVersion : ptr) (versionMap : list gitVersion) (b : loc)
    (v0 : semver.Version) :
  reachesAssembler env r h tagMap bs σ0 currentBranch masterVersion
                   versionMap σ ->
  ForbidBehindDefaultBranch bs = false ->
  versionMap <> [] ->
  basePointer versionMap masterVersion = Some b ->
  σ !! b = Some v0 ->
  (4 <= String.length (refHash h))%nat ->
  exists (σ' : store) (a : semver.Version),
    getVersion env r h tagMap bs σ0 = Ok (Some b, σ')
    /\ σ' !! b = Some a
    /\ numericTuple a
       = numericTuple (foldBumps v0 (foldedRecords versionMap)).
Proof.
  intros Hreach Hf Hne Hb Hv0 Hlen.
  rewrite (getVersion_assemble _ _ _ _ _ _ _ _ _ _ Hreach).
  destruct (foldedRecords versionMap) as [|r0 rs] eqn:Hfolded.
  - exists σ, v0. split; [|split; [exact Hv0|reflexivity]].
    destruct (oldest versionMap) as [old|] eqn:Hold;
      [|unfold oldest in Hold; apply last_None in Hold; contradiction].
    destruct (oldest_lookup _ _ Hold) as (index & Hlength & Hr).
    unfold foldedRecords in Hfolded. unfold basePointer in Hb.
    rewrite Hold in Hfolded, Hb.
    destruct (IsSolid old) eqn:Hsolid; [|contradiction].
    unfold assemble. rewrite Hlength, Hr. cbn [orPanic bind]. rewrite Hsolid.
    rewrite removelast_firstn_len, Hlength in Hfolded. cbn [Nat.pred] in Hfolded.
    destruct index as [|k]; [now rewrite Hb|].
    destruct versionMap as [|x xs]; [contradiction|discriminate Hfolded].
  - rewrite (assemble_folds _ _ _ _ _ _ b v0 Hb Hv0); [|now rewrite Hfolded|exact Hlen].
    rewrite policyCheck_lenient by exact Hf. rewrite Hfolded.
    eexists _, _. split; [reflexivity|].
    split; [apply lookup_insert_eq|reflexivity].
Qed.

Lemma getVersion_lenient_succeeds_witness :
  exists (σ' : store) (a : semver.Version),
    @getVersion exampleLibrary
      (fixedWalker (Some 1%positive) afterTag olderTag)
      ∅ featureCheckout topicHead ∅ lenient ∅
    = Ok (Some 2%positive, σ')
    /\ σ' !! 2%positive = Some a
    /\ numericTuple a = (0, 9, 0).
Proof.
  apply (@getVersion_lenient_succeeds exampleLibrary
           (fixedWalker (Some 1%positive) afterTag olderTag)
           ∅ featureCheckout topicHead ∅ lenient ∅ olderTag
           "feature-login" (Some 1%positive) afterTag 2%positive v090
           (featureCheckout_reaches afterTag olderTag lenient
              eq_refl eq_refl eq_refl));
    [reflexivity|discriminate|reflexivity|reflexivity|simpl; lia].
Defined.

Lemma mutate_frame (f : semver.Version -> semver.Version) (p : ptr)
    (σ σ' : store) :
  mutate f p σ = Ok σ' ->
  forall l : loc, p <> Some l -> σ' !! l = σ !! l.
Proof.
  unfold mutate. destruct p as [b|]; cbn [orPanic bind]; [|discriminate].
  destruct (σ !! b); cbn [orPanic bind]; [|discriminate].
  intros [= <-] l Hl. apply lookup_insert_ne. congruence.
Qed.

Lemma bumpLoop_frame (versionMap : list gitVersion) (p : ptr) (n : nat) :
  forall σ σ' : store,
    bumpLoop versionMap n p σ = Ok σ' ->
    forall l : loc, p <> Some l -> σ' !! l = σ !! l.
Proof.
  induction n as [|index IH]; intros σ σ'; cbn [bumpLoop].
  - now intros [= <-].
  - destruct (versionMap !! index) as [v|]; cbn [orPanic bind]; [|discriminate].
    destruct (applyBump v p σ) as [σ1| |] eqn:Hstep; cbn [bind];
      try discriminate.
    intros Hloop l Hl. rewrite (IH _ _ Hloop l Hl).
    unfold applyBump in Hstep. destruct (bumpOf v).
    + exact (mutate_frame _ _ _ _ Hstep l Hl).
    + now injection Hstep as <-.
Qed.

(** X14. The assembler writes to one object only.  When it succeeds, the
    pointer it returns is the base pointer, and every other version object
    in the store is as it was: with a solid oldest record whose version is
    an object of its own, the default-branch version is not touched. *)
Theorem getVersion_footprint `{GitLibrary} `{Walker} (env : environ)
    (r : Repository) (h : Reference) (tagMap : gmap string string)
    (bs : BranchSettings) (σ0 σ σ' : store) (currentBranch : string)
    (masterVersion p : ptr) (versionMap : list gitVersion) :
  reachesAssembler env r h tagMap bs σ0 currentBranch masterVersion
                   versionMap σ ->
  getVersion env r h tagMap bs σ0 = Ok (p, σ') ->
  p = basePointer versionMap masterVersion
  /\ forall l : loc, p <> Some l -> σ' !! l = σ !! l.
Proof.
  intros Hreach. rewrite (getVersion_assemble _ _ _ _ _ _ _ _ _ _ Hreach).
  unfold assemble, basePointer, oldest. rewrite last_lookup.
  destruct (length versionMap) as [|index]; [discriminate|]. cbn [Nat.pred].
  destruct (versionMap !! index) as [old|]; cbn [orPanic bind]; [|discriminate].
  set (base := if IsSolid old then Name old else masterVersion).
  destruct (if IsSolid old then index else S index) as [|k].
  { intros [= <- <-]. now split. }
  destruct (bumpLoop versionMap (S k) base σ) as [σ1| |] eqn:Hloop;
    cbn [bind]; try discriminate.
  destruct (slicePrefix 4 (refHash h)) as [shortHash| |]; cbn [bind];
    try discriminate.
  destruct (mutate _ base σ1) as [σ2| |] eqn:Hlabel; cbn [bind];
    try discriminate.
  assert (Hframe : forall l : loc, base <> Some l -> σ2 !! l = σ !! l).
  { intros l Hl. rewrite (mutate_frame _ _ _ _ Hlabel l Hl).
    exact (bumpLoop_frame _ _ _ _ _ Hloop l Hl). }
  destruct (ForbidBehindDefaultBranch bs).
  - destruct (deref base σ2) as [bv| |]; cbn [bind]; try discriminate.
    destruct (deref masterVersion σ2) as [m| |]; cbn [bind]; try discriminate.
    destruct (semver.LessThan bv m); [discriminate|].
    intros [= <- <-]. now split.
  - intros [= <- <-]. now split.
Qed.

Lemma getVersion_footprint_witness :
  Some 2%positive = basePointer afterTag (Some 1%positive)
  /\ forall l : loc,
       Some 2%positive <> Some l ->
       (<[2%positive := semver.mkVersion 1 0 0 "feature-login-1-a1b2" ""]>
          twoVersions) !! l
       = twoVersions !! l.
Proof.
  apply (@getVersion_footprint exampleLibrary
           (fixedWalker (Some 1%positive) afterTag twoVersions)
           ∅ featureCheckout topicHead ∅ lenient ∅ twoVersions _
           "feature-login" (Some 1%positive) (Some 2%positive) afterTag
           (featureCheckout_reaches afterTag twoVersions lenient
              eq_refl eq_refl eq_refl)).
  reflexivity.
Defined.

Lemma foldBumps_noBump (v0 : semver.Version) (records : list gitVersion) :
  Forall noBump records -> foldBumps v0 records = v0.
Proof.
  induction 1 as [|r records Hr _ IH]; [reflexivity|].
  unfold foldBumps in *. cbn [foldr]. rewrite IH.
  unfold bumpPure. unfold noBump in Hr. now rewrite Hr.
Qed.

(** X15. Commits without a bump flag change nothing but the label: when no
    folded record carries a flag, the assembled version is the base version
    with the label attached (same numbers, same build metadata). *)
Theorem getVersion_without_bumps `{GitLibrary} `{Walker} (env : environ)
    (r : Repository) (h : Reference) (tagMap : gmap string string)
    (bs : BranchSettings) (σ0 σ : store) (currentBranch : string)
    (masterVersion : ptr) (versionMap : list gitVersion) (b : loc)
    (v0 : semver.Version) :
  reachesAssembler env r h tagMap bs σ0 currentBranch masterVersion
                   versionMap σ ->
  basePointer versionMap masterVersion = Some b ->
  σ !! b = Some v0 ->
  foldedRecords versionMap <> [] ->
  Forall noBump (foldedRecords versionMap) ->
  (4 <= String.length (refHash h))%nat ->
  getVersion env r h tagMap bs σ0
  = policyCheck bs b
      (setPreRelease (labelOf versionMap currentBranch h) v0) masterVersion
      (<[b := setPreRelease (labelOf versionMap currentBranch h) v0]> σ).
Proof.
  intros Hreach Hb Hv0 Hne Hnone Hlen.
  rewrite (getVersion_assemble _ _ _ _ _ _ _ _ _ _ Hreach).
  rewrite (assemble_folds _ _ _ _ _ _ b v0 Hb Hv0 Hne Hlen).
  now rewrite (foldBumps_noBump v0 _ Hnone).
Qed.

Lemma getVersion_without_bumps_witness :
  @getVersion exampleLibrary
    (fixedWalker (Some 1%positive) afterTag twoVersions)
    ∅ featureCheckout topicHead ∅ lenient ∅
  = Ok (Some 2%positive,
        <[2%positive := semver.mkVersion 1 0 0 "feature-login-1-a1b2" ""]>
          twoVersions).
Proof.
  rewrite (@getVersion_without_bumps exampleLibrary
             (fixedWalker (Some 1%positive) afterTag twoVersions)
             ∅ featureCheckout topicHead ∅ lenient ∅ twoVersions
             "feature-login" (Some 1%positive) afterTag 2%positive v100
             (featureCheckout_reaches afterTag twoVersions lenient
                eq_refl eq_refl eq_refl));
    [reflexivity|reflexivity|reflexivity|discriminate
    |repeat constructor|simpl; lia].
Defined.

(** One bump keeps the components in range and does not lower the
    version. *)
Lemma bumpPure_grows (r : gitVersion) (v0 v : semver.Version) (k : nat) :
  roomFor (S k) v0 ->
  (0 <= semver.Major v <= semver.Major v0 + Z.of_nat k
   /\ 0 <= semver.Minor v <= semver.Minor v0 + Z.of_nat k
   /\ 0 <= semver.Patch v <= semver.Patch v0 + Z.of_nat k
   /\ ~ numericLt v v0) ->
  0 <= semver.Major (bumpPure r v) <= semver.Major v0 + Z.of_nat (S k)
  /\ 0 <= semver.Minor (bumpPure r v) <= semver.Minor v0 + Z.of_nat (S k)
  /\ 0 <= semver.Patch (bumpPure r v) <= semver.Patch v0 + Z.of_nat (S k)
  /\ ~ numericLt (bumpPure r v) v0.
Proof.
  unfold roomFor, numericLt. intros Hroom Hv.
  unfold bumpPure, bumpOf.
  destruct (MajorBump r); [|destruct (MinorBump r); [|destruct (PatchBump r)]];
    cbn [semver.BumpMajor semver.BumpMinor semver.BumpPatch
         semver.Major semver.Minor semver.Patch];
    rewrite ?wrap64_succ by lia; lia.
Qed.

Lemma foldBumps_grows (v0 : semver.Version) (records : list gitVersion) :
  roomFor (length records) v0 ->
  0 <= semver.Major (foldBumps v0 records)
    <= semver.Major v0 + Z.of_nat (length records)
  /\ 0 <= semver.Minor (foldBumps v0 records)
       <= semver.Minor v0 + Z.of_nat (length records)
  /\ 0 <= semver.Patch (foldBumps v0 records)
       <= semver.Patch v0 + Z.of_nat (length records)
  /\ ~ numericLt (foldBumps v0 records) v0.
Proof.
  induction records as [|r records IH]; intros Hroom.
  - unfold roomFor, numericLt in *. cbn. lia.
  - change (foldBumps v0 (r :: records))
      with (bumpPure r (foldBumps v0 records)).
    apply bumpPure_grows; [exact Hroom|].
    apply IH. unfold roomFor in *. cbn [length] in Hroom. lia.
Qed.

(** X16. The aggregation loop never lowers a version: starting from
    non-negative components that leave room for as many increments as there
    are records, the numbers after the loop are not lexicographically below
    the numbers before it. *)
Theorem bumpLoop_never_lowers (versionMap : list gitVersion) (n : nat)
    (l : loc) (σ : store) (v0 : semver.Version) :
  σ !! l = Some v0 ->
  (n <= length versionMap)%nat ->
  roomFor n v0 ->
  exists v' : semver.Version,
    bumpLoop versionMap n (Some l) σ = Ok (<[l := v']> σ)
    /\ ~ numericLt v' v0.
Proof.
  intros Hl Hn Hroom.
  exists (foldBumps v0 (take n versionMap)).
  split; [now apply bumpLoop_fold|].
  apply foldBumps_grows. now rewrite length_take, Nat.min_l.
Qed.

Lemma bumpLoop_never_lowers_witness :
  exists v' : semver.Version,
    bumpLoop majorAfterTag 1 (Some 2%positive) twoVersions
    = Ok (<[2%positive := v']> twoVersions)
    /\ ~ numericLt v' v100.
Proof.
  apply (bumpLoop_never_lowers majorAfterTag 1 2%positive twoVersions v100).
  - reflexivity.
  - simpl. lia.
  - unfold roomFor. cbn. lia.
Defined.

(** ** The known-tag map, entry by entry *)

Lemma annotatedLoop_stops (e : error) (before after : list Tag) (t : Tag) :
  Forall (fun t' => exists c, tagCommit t' = Ok c) before ->
  tagCommit t = Err e ->
  forall tagMap : gmap string string,
    annotatedLoop (before ++ t :: after) tagMap
    = Err (withMessage e "get commit failed").
Proof.
  intros Hbefore Ht.
  induction Hbefore as [|t0 before [c Hc] _ IH]; intros tagMap;
    cbn [app annotatedLoop].
  - now rewrite Ht.
  - rewrite Hc. cbn [wrap bind]. apply IH.
Qed.

(** X17. One annotated tag that does not lead to a commit stops
    everything: the map is not built and, without the tag shortcut,
    [GetCurrentVersion] fails with the error of that tag's [Commit()],
    wrapped as [get commit failed] and [GetCurrentVersion failed], whatever
    the other tags are. *)
Theorem GetCurrentVersion_bad_annotated_tag `{GitLibrary} `{Walker}
    (env : environ) (r : Repository) (bs : BranchSettings)
    (ltags : list Reference) (before after : list Tag) (t : Tag)
    (e : error) :
  env !! "TRAVIS_TAG" = None ->
  Tags r = Ok ltags ->
  TagObjects r = Ok (before ++ t :: after) ->
  Forall (fun t' => exists c, tagCommit t' = Ok c) before ->
  tagCommit t = Err e ->
  buildTagMap r
  = Err (withMessage (withMessage e "get commit failed")
                     "GetCurrentVersion failed")
  /\ GetCurrentVersion env r bs
     = Err (withMessage (withMessage e "get commit failed")
                        "GetCurrentVersion failed").
Proof.
  intros Htag Hl Ha Hbefore Ht.
  assert (Hmap : buildTagMap r
                 = Err (withMessage (withMessage e "get commit failed")
                                    "GetCurrentVersion failed")).
  { unfold buildTagMap. rewrite Hl, Ha. cbn [wrap bind].
    now rewrite (annotatedLoop_stops e before after t Hbefore Ht). }
  split; [exact Hmap|].
  unfold GetCurrentVersion. now rewrite Htag, Hmap.
Qed.

Lemma GetCurrentVersion_bad_annotated_tag_witness :
  @GetCurrentVersion exampleLibrary taggedWalker ∅ treeTagged lenient
  = Err (withMessage (withMessage errNotCommit "get commit failed")
                     "GetCurrentVersion failed").
Proof.
  apply (@GetCurrentVersion_bad_annotated_tag exampleLibrary taggedWalker
           ∅ treeTagged lenient
           [mkReference "refs/tags/v1.0.0" hashB]
           [mkTag "v0.9.0" (Ok hashA)] [mkTag "v1.0.0" (Ok hashB)]
           (mkTag "snapshot" (Err errNotCommit)) errNotCommit);
    try reflexivity.
  repeat constructor. now exists hashA.
Defined.

Lemma lightweight_entries (Q : string -> string -> Prop)
    (ltags : list Reference) :
  (forall ref, In ref ltags ->
     Q (refHash ref) (Replace (refName ref) "refs/tags/" "")) ->
  forall acc : gmap string string,
    (forall hash name, acc !! hash = Some name -> Q hash name) ->
    forall hash name,
      fold_left lightweightStep ltags acc !! hash = Some name -> Q hash name.
Proof.
  induction ltags as [|ref ltags IH]; intros Hin acc Hacc; [exact Hacc|].
  cbn [fold_left]. apply IH; [intros ref' Hr; apply Hin; now right|].
  intros hash name. unfold lightweightStep. rewrite lookup_insert.
  destruct (decide (refHash ref = hash)) as [<-|_]; [|apply Hacc].
  intros [= <-]. apply Hin. now left.
Qed.

Lemma annotated_entries (Q : string -> string -> Prop) (tags : list Tag) :
  (forall t c, In t tags -> tagCommit t = Ok c -> Q c (tagName t)) ->
  forall acc m : gmap string string,
    (forall hash name, acc !! hash = Some name -> Q hash name) ->
    annotatedLoop tags acc = Ok m ->
    forall hash name, m !! hash = Some name -> Q hash name.
Proof.
  induction tags as [|t tags IH]; intros Hin acc m Hacc; cbn [annotatedLoop].
  - now intros [= <-].
  - destruct (tagCommit t) as [c| |] eqn:Hc; cbn [wrap bind]; try discriminate.
    apply IH; [intros t' c' Ht'; apply Hin; now right|].
    intros hash name. rewrite lookup_insert.
    destruct (decide (c = hash)) as [<-|_]; [|apply Hacc].
    intros [= <-]. apply (Hin t c); [now left|exact Hc].
Qed.

(** X18. The map has no entries of its own making: every entry is the
    commit of an annotated tag with that tag's name, or the hash of a
    reference under [refs/tags/] with that reference's name after
    [refs/tags/] has been removed from it. *)
Theorem tagMap_entries_come_from_tags (r : Repository)
    (ltags : list Reference) (tags : list Tag) (m : gmap string string)
    (hash name : string) :
  Tags r = Ok ltags ->
  TagObjects r = Ok tags ->
  buildTagMap r = Ok m ->
  m !! hash = Some name ->
  (exists t, In t tags /\ tagCommit t = Ok hash /\ name = tagName t)
  \/ (exists ref, In ref ltags /\ refHash ref = hash
                  /\ name = Replace (refName ref) "refs/tags/" "").
Proof.
  intros Hl Ha. unfold buildTagMap. rewrite Hl, Ha. cbn [wrap bind].
  destruct (annotatedLoop tags (fold_left lightweightStep ltags ∅))
    as [m'| |] eqn:Hloop; cbn [wrap]; try discriminate.
  intros [= <-].
  set (Q := fun hash name =>
    (exists t, In t tags /\ tagCommit t = Ok hash /\ name = tagName t)
    \/ (exists ref, In ref ltags /\ refHash ref = hash
                    /\ name = Replace (refName ref) "refs/tags/" "")).
  revert hash name.
  apply (annotated_entries Q tags) with (acc := fold_left lightweightStep ltags ∅);
    [| |exact Hloop].
  - intros t c Hin Hc. left. now exists t.
  - apply (lightweight_entries Q ltags).
    + intros ref Hin. right. now exists ref.
    + intros hash name. now rewrite lookup_empty.
Qed.

Lemma tagMap_entries_come_from_tags_witness :
  (exists t, In t [mkTag "v1.0.0" (Ok hashB)]
             /\ tagCommit t = Ok hashB /\ "v1.0.0" = tagName t)
  \/ (exists ref, In ref [mkReference "refs/tags/v1.0.0-light" hashB]
                  /\ refHash ref = hashB
                  /\ "v1.0.0" = Replace (refName ref) "refs/tags/" "").
Proof.
  apply (tagMap_entries_come_from_tags doublyTagged
           [mkReference "refs/tags/v1.0.0-light" hashB]
           [mkTag "v1.0.0" (Ok hashB)] (<[hashB := "v1.0.0"]> ∅) hashB "v1.0.0");
    reflexivity.
Defined.

Lemma lightweight_last (hash : string) (before after : list Reference)
    (ref : Reference) (acc : gmap string string) :
  refHash ref = hash ->
  Forall (fun ref' => refHash ref' <> hash) after ->
  fold_left lightweightStep (before ++ ref :: after) acc !! hash
  = Some (Replace (refName ref) "refs/tags/" "").
Proof.
  intros Hh Hafter. rewrite fold_left_app. cbn [fold_left].
  set (acc' := fold_left lightweightStep before acc).
  assert (Hstart : lightweightStep acc' ref !! hash
                   = Some (Replace (refName ref) "refs/tags/" "")).
  { unfold lightweightStep. rewrite Hh. apply lookup_insert_eq. }
  revert Hstart. generalize (lightweightStep acc' ref).
  induction Hafter as [|ref' after Hne _ IH]; intros m Hm; [exact Hm|].
  cbn [fold_left]. apply IH. unfold lightweightStep.
  now rewrite lookup_insert_ne.
Qed.

(** X19. A commit that only lightweight tags point at is entered under the
    name of the last of them in enumeration order, with [refs/tags/]
    removed. *)
Theorem tagMap_lightweight_only (r : Repository)
    (before after : list Reference) (ref : Reference) (tags : list Tag)
    (hash : string) :
  Tags r = Ok (before ++ ref :: after) ->
  TagObjects r = Ok tags ->
  Forall (fun t => exists c, tagCommit t = Ok c) tags ->
  Forall (fun t => tagCommit t <> Ok hash) tags ->
  refHash ref = hash ->
  Forall (fun ref' => refHash ref' <> hash) after ->
  exists m : gmap string string,
    buildTagMap r = Ok m
    /\ m !! hash = Some (Replace (refName ref) "refs/tags/" "").
Proof.
  intros Hl Ha Hall Hnone Hh Hafter.
  destruct (annotatedLoop_last hash tags Hall
              (fold_left lightweightStep (before ++ ref :: after) ∅))
    as (m & Hm & Hcases).
  exists m. split.
  - unfold buildTagMap. rewrite Hl, Ha. cbn [wrap bind]. now rewrite Hm.
  - destruct Hcases as [(b' & t & a' & -> & Ht & _)|[_ Hlook]].
    + exfalso. rewrite Forall_app, Forall_cons in Hnone.
      now destruct Hnone as (_ & Hnot & _).
    + rewrite Hlook. now apply lightweight_last.
Qed.

Lemma tagMap_lightweight_only_witness :
  exists m : gmap string string,
    buildTagMap lightlyTagged = Ok m /\ m !! hashB = Some "v1.0.0".
Proof.
  apply (tagMap_lightweight_only lightlyTagged
           [mkReference "refs/tags/v1.0.0-rc1" hashB] []
           (mkReference "refs/tags/v1.0.0" hashB)
           [mkTag "v0.9.0" (Ok hashA)] hashB); try reflexivity.
  - repeat constructor. now exists hashA.
  - repeat constructor. discriminate.
  - constructor.
Defined.

Lemma replaceFrom_skip (old new u t : string) :
  replaceFrom old new (String.length u) (u +:+ t) = replaceFrom old new O t.
Proof.
  induction u as [|c u IH]; [reflexivity|]. exact IH.
Qed.

Lemma replaceFrom_absent (old new s : string) :
  containsb old s = false -> replaceFrom old new O s = s.
Proof.
  induction s as [|c s IH]; [reflexivity|].
  cbn [containsb replaceFrom]. intros Hc.
  apply orb_false_iff in Hc as [Hp Hs]. now rewrite Hp, IH.
Qed.

(** X20. The name of a lightweight tag: from [refs/tags/] followed by a
    name that does not contain [refs/tags/] again, the replacement leaves
    exactly that name, so the tag is entered under it. *)
Theorem lightweight_tag_name (t hash : string) (tagMap : gmap string string) :
  containsb "refs/tags/" t = false ->
  Replace ("refs/tags/" +:+ t) "refs/tags/" "" = t
  /\ lightweightStep tagMap (mkReference ("refs/tags/" +:+ t) hash) !! hash
     = Some t.
Proof.
  intros Hc.
  assert (Hr : Replace ("refs/tags/" +:+ t) "refs/tags/" "" = t).
  { unfold Replace.
    change ("refs/tags/" +:+ t) with (String "r" ("efs/tags/" +:+ t)).
    cbn [replaceFrom].
    replace (HasPrefix (String "r" ("efs/tags/" +:+ t)) "refs/tags/")
      with true by reflexivity.
    change (Nat.pred (String.length "refs/tags/"))
      with (String.length "efs/tags/").
    rewrite replaceFrom_skip. now apply replaceFrom_absent. }
  split; [exact Hr|].
  unfold lightweightStep. cbn [refHash refName]. rewrite Hr.
  apply lookup_insert_eq.
Qed.

Lemma lightweight_tag_name_witness :
  Replace "refs/tags/release/1.4.0" "refs/tags/" "" = "release/1.4.0".
Proof.
  apply (lightweight_tag_name "release/1.4.0" hashA ∅). reflexivity.
Defined.

(** ** The version string and the two commands *)

Lemma getBoolFromFlag_defined (cmd : command) (flagName value : string) :
  cmd !! flagName = Some value ->
  getBoolFromFlag cmd flagName
  = Ok (existsb (String.eqb value) trueSpellings).
Proof.
  intros E. unfold getBoolFromFlag, ParseBool. rewrite E. cbn [orPanic bind].
  fold trueSpellings.
  destruct (existsb (String.eqb value) trueSpellings); [reflexivity|].
  now destruct (existsb _ _).
Qed.

(** X21. On a build with a non-empty [TRAVIS_TAG], the root command prints
    the version that the tag parses to and nothing else decides: the
    repository is not read and the flags do not matter, because the command
    line cannot switch the environment signals off. *)
Theorem runRoot_tag_build `{GitLibrary} `{Walker} (env : environ)
    (r : Repository) (cmd : command) (tag verbose forbid trim : string)
    (version : semver.Version) :
  cmd !! "verbose" = Some verbose ->
  cmd !! "forbid-behind-master" = Some forbid ->
  cmd !! "trim-branch-prefix" = Some trim ->
  env !! "TRAVIS_TAG" = Some tag ->
  tag <> "" ->
  parseTag tag = Ok version ->
  runRoot env r cmd = Ok (semver.String_ version +:+ String "010" "").
Proof.
  intros Hv Hf Ht Htag Hne Hparse.
  unfold runRoot, getBranchSettings.
  rewrite (getBoolFromFlag_defined cmd _ _ Hv),
    (getBoolFromFlag_defined cmd _ _ Hf),
    (getBoolFromFlag_defined cmd _ _ Ht).
  cbn [bind]. unfold GetCurrentVersion. rewrite Htag.
  cbn [IgnoreEnvVars negb andb]. apply String.eqb_neq in Hne. rewrite Hne.
  cbn [negb]. now rewrite Hparse.
Qed.

Lemma runRoot_tag_build_witness :
  @runRoot exampleLibrary taggedWalker travisTagEnv isolated rootCmd
  = Ok ("2.1.0" +:+ String "010" "").
Proof.
  apply (@runRoot_tag_build exampleLibrary taggedWalker travisTagEnv isolated
           rootCmd "v2.1.0" "false" "false" "false"
           (semver.mkVersion 2 1 0 "" "")); try reflexivity.
  discriminate.
Defined.

(** X22. With [IgnoreEnvVars] set the environment is not read at all: the
    version is the same under any two environments. *)
Theorem GetCurrentVersion_ignores_environment `{GitLibrary} `{Walker}
    (env env' : environ) (r : Repository) (bs : BranchSettings) :
  IgnoreEnvVars bs = true ->
  GetCurrentVersion env r bs = GetCurrentVersion env' r bs.
Proof.
  intros Hig.
  assert (Hv : forall h tagMap σ,
             getVersion env r h tagMap bs σ = getVersion env' r h tagMap bs σ).
  { intros h tagMap σ. unfold getVersion.
    now rewrite !(getCurrentBranch_scans _ r h bs (or_introl Hig)). }
  unfold GetCurrentVersion. rewrite Hig. cbn [negb andb].
  destruct (env !! "TRAVIS_TAG"), (env' !! "TRAVIS_TAG");
    destruct (buildTagMap r) as [tagMap| |]; cbn [bind]; try reflexivity;
    destruct (Head r) as [h| |]; cbn [wrap bind]; try reflexivity;
    now rewrite Hv.
Qed.

Lemma GetCurrentVersion_ignores_environment_witness :
  @GetCurrentVersion exampleLibrary
     (fixedWalker (Some 1%positive) untagged twoVersions)
     travisPushEnv atDefaultHead (mkBranchSettings true false true Master)
  = @GetCurrentVersion exampleLibrary
      (fixedWalker (Some 1%positive) untagged twoVersions)
      travisTagEnv atDefaultHead (mkBranchSettings true false true Master).
Proof.
  apply (@GetCurrentVersion_ignores_environment exampleLibrary
           (fixedWalker (Some 1%positive) untagged twoVersions)
           travisPushEnv travisTagEnv atDefaultHead
           (mkBranchSettings true false true Master)).
  reflexivity.
Defined.

Lemma append_assoc (s t u : string) : (s +:+ t) +:+ u = s +:+ (t +:+ u).
Proof.
  induction s as [|c s IH]; [reflexivity|].
  change (String c ((s +:+ t) +:+ u) = String c (s +:+ (t +:+ u))).
  now rewrite IH.
Qed.

Lemma String_labelled (label : string) (v : semver.Version) :
  (0 < String.length label)%nat ->
  semver.String_ (setPreRelease label v)
  = formatInt (semver.Major v) +:+ "." +:+ formatInt (semver.Minor v) +:+ "."
      +:+ formatInt (semver.Patch v) +:+ "-" +:+ label +:+ metadataSuffix v.
Proof.
  intros Hlen. unfold semver.String_, metadataSuffix, setPreRelease.
  cbn [semver.Major semver.Minor semver.Patch semver.PreRelease
       semver.Metadata].
  destruct label as [|c label]; [cbn in Hlen; lia|].
  cbn [String.eqb]. now rewrite !append_assoc.
Qed.

(** X23. The version string of a branch: when the assembler is reached
    with the check off and something is folded, [GetCurrentVersion] returns
    [{major}.{minor}.{patch}-{branch}-{count}-{hash}] (and [+metadata] when
    the base carries build metadata and no record bumps), with the numbers
    of the folded base, [count] the length of the sequence minus one and
    [hash] the first four characters of the head's hash. *)
Theorem GetCurrentVersion_branch_string `{GitLibrary} `{Walker}
    (env : environ) (r : Repository) (bs : BranchSettings)
    (tagMap : gmap string string) (h : Reference) (σ : store)
    (currentBranch : string) (masterVersion : ptr)
    (versionMap : list gitVersion) (b : loc) (v0 : semver.Version) :
  env !! "TRAVIS_TAG" = None ->
  buildTagMap r = Ok tagMap ->
  Head r = Ok h ->
  reachesAssembler env r h tagMap bs ∅ currentBranch masterVersion
                   versionMap σ ->
  ForbidBehindDefaultBranch bs = false ->
  basePointer versionMap masterVersion = Some b ->
  σ !! b = Some v0 ->
  foldedRecords versionMap <> [] ->
  (4 <= String.length (refHash h))%nat ->
  let a := foldBumps v0 (foldedRecords versionMap) in
  GetCurrentVersion env r bs
  = Ok (formatInt (semver.Major a) +:+ "." +:+ formatInt (semver.Minor a)
          +:+ "." +:+ formatInt (semver.Patch a) +:+ "-"
          +:+ prereleaseLabel currentBranch
                (Z.of_nat (length versionMap) - 1)
                (substring 0 4 (refHash h))
          +:+ metadataSuffix a).
Proof.
  intros Htag Hmap Hhead Hreach Hf Hb Hv0 Hne Hlen a.
  unfold GetCurrentVersion. rewrite Htag, Hmap, Hhead. cbn [wrap bind].
  rewrite (getVersion_assemble _ _ _ _ _ _ _ _ _ _ Hreach).
  rewrite (assemble_folds _ _ _ _ _ _ b v0 Hb Hv0 Hne Hlen).
  rewrite policyCheck_lenient by exact Hf.
  cbn [wrap bind fst snd]. unfold deref. cbn [orPanic bind].
  rewrite lookup_insert_eq. cbn [orPanic bind]. fold a.
  unfold labelOf. now rewrite String_labelled by apply prereleaseLabel_nonempty.
Qed.

Lemma GetCurrentVersion_branch_string_witness :
  @GetCurrentVersion exampleLibrary
    (fixedWalker (Some 1%positive) majorAfterTag twoVersions)
    ∅ featureCheckout lenient
  = Ok "2.0.0-feature-login-1-a1b2".
Proof.
  rewrite (@GetCurrentVersion_branch_string exampleLibrary
             (fixedWalker (Some 1%positive) majorAfterTag twoVersions)
             ∅ featureCheckout lenient ∅ topicHead twoVersions
             "feature-login" (Some 1%positive) majorAfterTag 2%positive v100);
    [reflexivity|reflexivity|reflexivity|reflexivity
    |exact (featureCheckout_reaches majorAfterTag twoVersions lenient
              eq_refl eq_refl eq_refl)
    |reflexivity|reflexivity|reflexivity|discriminate|simpl; lia].
Defined.

(** The resolver reads two settings only. *)
Lemma getCurrentBranch_settings `{GitLibrary} (env : environ)
    (r : Repository) (h : Reference) (bs bs' : BranchSettings) :
  IgnoreEnvVars bs = IgnoreEnvVars bs' ->
  TrimBranchPrefix bs = TrimBranchPrefix bs' ->
  getCurrentBranch env r h bs = getCurrentBranch env r h bs'.
Proof.
  intros Hig Htrim. unfold getCurrentBranch, scanReferences.
  now rewrite Hig, Htrim.
Qed.

(** X24. The two commands agree on the branch name: with the same value of
    [--trim-branch-prefix], the name that the root command's [getVersion]
    puts into the prerelease label is the name that the [label] command
    prints, except that [label] prints an empty line for [master]. *)
Theorem label_command_matches_version `{GitLibrary} (env : environ)
    (r : Repository) (rootFlags labelFlags : command) (trim : string)
    (bs : BranchSettings) (h : Reference) (currentBranch : string) :
  rootFlags !! "trim-branch-prefix" = Some trim ->
  labelFlags !! "trim-branch-prefix" = Some trim ->
  getBranchSettings rootFlags = Ok bs ->
  Head r = Ok h ->
  getCurrentBranch env r h bs = Ok currentBranch ->
  runPrereleaseCmd env r labelFlags
  = Ok ((if String.eqb currentBranch "master" then "" else currentBranch)
          +:+ String "010" "").
Proof.
  intros Hroot Hlabel Hbs Hhead Hcb.
  unfold getBranchSettings in Hbs.
  destruct (getBoolFromFlag rootFlags "forbid-behind-master") as [fbm| |];
    cbn [bind] in Hbs; try discriminate.
  rewrite (getBoolFromFlag_defined rootFlags _ _ Hroot) in Hbs.
  cbn [bind] in Hbs.
  assert (E : bs = mkBranchSettings
                     fbm (existsb (String.eqb trim) trueSpellings) false Master)
    by congruence.
  subst bs. clear Hbs.
  unfold runPrereleaseCmd.
  rewrite (getBoolFromFlag_defined labelFlags _ _ Hlabel). cbn [bind].
  unfold runPrerelease, GetPrereleaseLabel. rewrite Hhead. cbn [wrap bind].
  rewrite (getCurrentBranch_settings env r h
             (mkBranchSettings false (existsb (String.eqb trim) trueSpellings)
                               false "")
             (mkBranchSettings fbm (existsb (String.eqb trim) trueSpellings)
                               false Master) eq_refl eq_refl).
  now rewrite Hcb.
Qed.

Lemma label_command_matches_version_witness :
  @runPrereleaseCmd exampleLibrary ∅ featureCheckout trimmingLabel
  = Ok ("login" +:+ String "010" "").
Proof.
  apply (@label_command_matches_version exampleLibrary ∅ featureCheckout
           trimmingRoot trimmingLabel "true"
           (mkBranchSettings false true false Master) topicHead "login");
    reflexivity.
Defined.

(** X25. The settings of the root command: on a command that defines both
    flags, [getBranchSettings] succeeds; a flag is on exactly for the
    spellings 1, t, T, true, TRUE, True (any other text counts as off, not
    as an error), the environment signals stay enabled and the preferred
    default branch is [refs/heads/master].  On a command without the
    [forbid-behind-master] flag it panics. *)
Theorem getBranchSettings_from_flags (cmd : command) :
  (forall forbid trim : string,
      cmd !! "forbid-behind-master" = Some forbid ->
      cmd !! "trim-branch-prefix" = Some trim ->
      getBranchSettings cmd
      = Ok (mkBranchSettings (existsb (String.eqb forbid) trueSpellings)
                             (existsb (String.eqb trim) trueSpellings)
                             false Master))
  /\ (cmd !! "forbid-behind-master" = None -> getBranchSettings cmd = Panic).
Proof.
  split.
  - intros forbid trim Hf Ht. unfold getBranchSettings.
    now rewrite (getBoolFromFlag_defined cmd _ _ Hf),
      (getBoolFromFlag_defined cmd _ _ Ht).
  - intros Hnone. unfold getBranchSettings, getBoolFromFlag. now rewrite Hnone.
Qed.

Lemma getBranchSettings_from_flags_witness :
  getBranchSettings (<["forbid-behind-master" := "yes"]> trimmingRoot)
  = Ok (mkBranchSettings false true false Master)
  /\ getBranchSettings prereleaseCmd = Panic.
Proof.
  split.
  - apply (proj1 (getBranchSettings_from_flags
                    (<["forbid-behind-master" := "yes"]> trimmingRoot))
             "yes" "true"); reflexivity.
  - apply (proj2 (getBranchSettings_from_flags prereleaseCmd)). reflexivity.
Defined.

(** ** Opening the repository and the settings *)

(** X26. The settings file: when the [settings] flag was not given and the
    default file is not found, the default settings are used and the file
    is not opened; when the flag was given or the file is found, a file that
    cannot be opened or read is fatal, and so is a repository that cannot be
    opened.  A failure is always a panic, never an error result. *)
Theorem getRepoAndSettings_settings_file {Settings File : Type}
    `{SettingsLoader Settings File} (disk : Disk File) :
  (settingsChanged disk = false -> settingsFound disk = false ->
   forall r, repositoryOpen disk = Ok r ->
     getRepoAndSettings disk = Ok (r, GetDefaultSettings))
  /\ (settingsChanged disk = true \/ settingsFound disk = true ->
      forall r f s, repositoryOpen disk = Ok r -> settingsOpen disk = Ok f ->
        GetSettingsFromFile f = Ok s ->
        getRepoAndSettings disk = Ok (r, s))
  /\ (settingsChanged disk = true \/ settingsFound disk = true ->
      (exists e, settingsOpen disk = Err e)
      \/ (exists f e, settingsOpen disk = Ok f
                      /\ GetSettingsFromFile f = Err e) ->
      getRepoAndSettings disk = Panic)
  /\ (forall e, repositoryOpen disk = Err e ->
      getRepoAndSettings disk = Panic)
  /\ (forall e, getRepoAndSettings disk <> Err e).
Proof.
  unfold getRepoAndSettings.
  split; [|split; [|split; [|split]]].
  - intros -> -> r ->. reflexivity.
  - intros Hread r f s -> Hf Hs.
    replace (settingsChanged disk || settingsFound disk) with true
      by (destruct Hread as [-> | ->]; [reflexivity|now rewrite orb_true_r]).
    rewrite Hf. cbn [orElsePanic bind]. now rewrite Hs.
  - intros Hread Hbad.
    replace (settingsChanged disk || settingsFound disk) with true
      by (destruct Hread as [-> | ->]; [reflexivity|now rewrite orb_true_r]).
    destruct Hbad as [[e ->]|(f & e & -> & Hs)]; [reflexivity|].
    cbn [orElsePanic bind]. now rewrite Hs.
  - intros e ->.
    destruct (settingsChanged disk || settingsFound disk); [|reflexivity].
    destruct (settingsOpen disk) as [f| |]; cbn [orElsePanic bind];
      try reflexivity.
    now destruct (GetSettingsFromFile f).
  - intros e.
    destruct (settingsChanged disk || settingsFound disk).
    + destruct (settingsOpen disk) as [f| |]; cbn [orElsePanic bind];
        try discriminate.
      destruct (GetSettingsFromFile f); cbn [orElsePanic bind];
        try discriminate.
      destruct (repositoryOpen disk); discriminate.
    + cbn [bind]. destruct (repositoryOpen disk); discriminate.
Qed.

Lemma getRepoAndSettings_settings_file_witness :
  @getRepoAndSettings string string textSettings
    (mkDisk false false (Err errNotFound) (Ok featureCheckout))
  = Ok (featureCheckout, "")
  /\ @getRepoAndSettings string string textSettings
       (mkDisk true false (Err errNotFound) (Ok featureCheckout))
     = Panic.
Proof.
  split.
  - apply (proj1 (@getRepoAndSettings_settings_file string string textSettings
                    (mkDisk false false (Err errNotFound)
                            (Ok featureCheckout)))); reflexivity.
  - destruct (@getRepoAndSettings_settings_file string string textSettings
                (mkDisk true false (Err errNotFound) (Ok featureCheckout)))
      as (_ & _ & Hbad & _).
    apply Hbad; [now left|]. left. now exists errNotFound.
Defined.
